(** * sbomgen: the dependency-extraction pipeline of [pkg/analyzer]

    A shallow embedding of [analyzer.go]: the directory walk of
    [ProjectAnalyzer.AnalyzeDir], the five ecosystem analyzers (npm, PyPI,
    Go modules, Cargo, Maven) and the parts of Go's [strings] and
    [path/filepath] packages they call, followed by the properties of the
    pipeline.

    Conventions.
    - A Go [string] is a sequence of bytes: [gostring := list ascii].
    - A Go [int] index that is [-1] for "not found" is an [option nat].
    - A Go [(value, error)] result is an [option]: [None] is a non-nil error.
    - Paths use the Unix separator. *)

From Stdlib Require Import Ascii String Sorted.
From stdpp Require Import gmap strings list fin_maps.

Open Scope string_scope.
Open Scope list_scope.
Open Scope nat_scope.

(** ** Go strings *)

Definition gostring : Type := list ascii.

(** String literals of the source are written as Rocq string literals. *)
Definition lit (s : string) : list ascii := list_ascii_of_string s.
Coercion lit : string >-> list.

Definition dquote : ascii := "034"%char.
Definition newline : ascii := "010"%char.
Definition tab : ascii := "009"%char.

(** [fmt.Sprintf] is only used with formats made of literal text and [%s]
    verbs applied to strings, which is concatenation. *)
Definition Sprintf_pkg (ecosystem name version : gostring) : gostring :=
  "pkg:" ++ ecosystem ++ "/" ++ name ++ "@" ++ version.

Module strings.

(** [strings.HasPrefix]. *)
Fixpoint HasPrefix (s prefix : gostring) {struct prefix} : bool :=
  match prefix, s with
  | [], _ => true
  | _ :: _, [] => false
  | p :: prefix', c :: s' => Ascii.eqb c p && HasPrefix s' prefix'
  end.

(** [strings.Index]: the byte offset of the first occurrence of [substr]
    in [s]; [None] stands for [-1]. *)
Fixpoint Index (s substr : gostring) : option nat :=
  if HasPrefix s substr then Some 0
  else match s with
       | [] => None
       | _ :: s' => S <$> Index s' substr
       end.

(** [strings.Contains] is [Index(s, substr) >= 0]. *)
Definition Contains (s substr : gostring) : bool :=
  bool_decide (is_Some (Index s substr)).

(** The loop of [strings.genSplit] for a non-empty separator: cut at the
    first occurrence of [sep] and go on after it, at most [cuts] times.
    Every call site of the source passes a non-empty literal separator. *)
Fixpoint genSplit (cuts : nat) (s sep : gostring) : list gostring :=
  match cuts with
  | 0 => [s]
  | S cuts' =>
      match Index s sep with
      | None => [s]
      | Some m => take m s :: genSplit cuts' (drop (m + length sep) s) sep
      end
  end.

(** [strings.Split]: [genSplit] with [n = Count(s, sep) + 1], so the loop
    only stops when [Index] fails; [length s] cuts are never exhausted. *)
Definition Split (s sep : gostring) : list gostring :=
  genSplit (length s) s sep.

(** [strings.SplitN] for [n > 0]: at most [n - 1] cuts. *)
Definition SplitN (s sep : gostring) (n : nat) : list gostring :=
  genSplit (n - 1) s sep.

(** White space, as [unicode.IsSpace] sees it through UTF-8 decoding.
    [spaceWidth s] is the number of bytes of the white-space rune encoded
    at the head of [s], and [0] when [s] does not start with one. The
    white-space runes are U+0009..U+000D, U+0020, U+0085, U+00A0, U+1680,
    U+2000..U+200A, U+2028, U+2029, U+202F, U+205F and U+3000; each has a
    single valid UTF-8 encoding, listed in [spaceRunes], and an invalid
    byte decodes to U+FFFD of width 1, which is not white space. *)
Definition spaceRunes : list gostring :=
  [ ["009"]; ["010"]; ["011"]; ["012"]; ["013"]; ["032"];
    ["194"; "133"]; ["194"; "160"];
    ["225"; "154"; "128"];
    ["226"; "128"; "128"]; ["226"; "128"; "129"]; ["226"; "128"; "130"];
    ["226"; "128"; "131"]; ["226"; "128"; "132"]; ["226"; "128"; "133"];
    ["226"; "128"; "134"]; ["226"; "128"; "135"]; ["226"; "128"; "136"];
    ["226"; "128"; "137"]; ["226"; "128"; "138"];
    ["226"; "128"; "168"]; ["226"; "128"; "169"]; ["226"; "128"; "175"];
    ["226"; "129"; "159"];
    ["227"; "128"; "128"] ]%char.

(** [strings.HasSuffix]. *)
Definition HasSuffix (s suffix : gostring) : bool :=
  HasPrefix (rev s) (rev suffix).

(** The width of the white-space rune that starts [s], [0] if there is
    none ([utf8.DecodeRuneInString] followed by [unicode.IsSpace]). *)
Definition spaceWidth (s : gostring) : nat :=
  match find (HasPrefix s) spaceRunes with
  | Some rune => length rune
  | None => 0
  end.

(** The width of the white-space rune that ends [s], [0] if there is none
    ([utf8.DecodeLastRuneInString] followed by [unicode.IsSpace]). *)
Definition lastSpaceWidth (s : gostring) : nat :=
  match find (HasSuffix s) spaceRunes with
  | Some rune => length rune
  | None => 0
  end.

Fixpoint trimLeftSpace (fuel : nat) (s : gostring) : gostring :=
  match fuel with
  | 0 => s
  | S fuel' =>
      match spaceWidth s with
      | 0 => s
      | w => trimLeftSpace fuel' (drop w s)
      end
  end.

Fixpoint trimRightSpace (fuel : nat) (s : gostring) : gostring :=
  match fuel with
  | 0 => s
  | S fuel' =>
      match lastSpaceWidth s with
      | 0 => s
      | w => trimRightSpace fuel' (take (length s - w) s)
      end
  end.

(** [strings.TrimSpace]: leading white-space runes are removed, then
    trailing ones. *)
Definition TrimSpace (s : gostring) : gostring :=
  let s1 := trimLeftSpace (length s) s in
  trimRightSpace (length s1) s1.

(** [strings.Fields]: the maximal runs of bytes between white-space
    runes. [cur] is the field being read. *)
Definition flushField (cur : gostring) : list gostring :=
  match cur with
  | [] => []
  | _ => [cur]
  end.

Fixpoint fieldsFrom (fuel : nat) (cur s : gostring) : list gostring :=
  match fuel, s with
  | 0, _ | _, [] => flushField cur
  | S fuel', c :: s' =>
      match spaceWidth s with
      | 0 => fieldsFrom fuel' (cur ++ [c]) s'
      | w => flushField cur ++ fieldsFrom fuel' [] (drop w s)
      end
  end.

Definition Fields (s : gostring) : list gostring :=
  fieldsFrom (length s) [] s.

(** [strings.Trim] with a cutset of one ASCII byte:
    [trimLeftByte(trimRightByte(s, c), c)]. *)
Fixpoint trimLeftByte (s : gostring) (c : ascii) : gostring :=
  match s with
  | b :: s' => if Ascii.eqb b c then trimLeftByte s' c else s
  | [] => []
  end.

Definition trimRightByte (s : gostring) (c : ascii) : gostring :=
  rev (trimLeftByte (rev s) c).

Definition TrimByte (s : gostring) (c : ascii) : gostring :=
  trimLeftByte (trimRightByte s c) c.

End strings.

Module filepath.

Definition Separator : ascii := "/"%char.

(** The last element of a path with no trailing separator: the text after
    its last separator. *)
Fixpoint afterLastSep (path : gostring) : gostring :=
  match path with
  | [] => []
  | c :: path' =>
      if bool_decide (Separator ∈ path') then afterLastSep path'
      else if Ascii.eqb c Separator then path' else path
  end.

(** [filepath.Base]: trailing separators are removed first; the empty path
    gives ["."] and a path of separators only gives ["/"]. *)
Definition Base (path : gostring) : gostring :=
  match path with
  | [] => "."
  | _ =>
      let path1 := strings.trimRightByte path Separator in
      match afterLastSep path1 with
      | [] => "/"
      | elem => elem
      end
  end.

(** [filepath.Join(path, name)] as [filepath.Walk] calls it, with [name] an
    entry returned by reading the directory [path]. The source only looks
    at the last element of the result, which [filepath.Clean] leaves
    as it is. *)
Definition Join (path name : gostring) : gostring :=
  path ++ "/" ++ name.

End filepath.

(** ** Component records *)

Module sbom.

(** Modelled from the spec: the types [sbom.Component] and [sbom.Metadata]
    of package [pkg/sbom], which the analyzers fill in but whose
    declaration is not among the sources. The fields are the ones the
    analyzers set: name, version, ecosystem (supplier), package URL, and
    the free-form description that carries the development-dependency
    mark. A field left out of a Go composite literal is the empty string. *)
Record Metadata : Type := { Description : gostring }.

Record Component : Type := {
  Name : gostring;
  Version : gostring;
  Supplier : gostring;
  PURL : gostring;
  Meta : Metadata
}.

Definition noMetadata : Metadata := {| Description := "" |}.

End sbom.

Import sbom.

(** ** The analyzers *)

(** The struct [json.Unmarshal] fills in [NPMAnalyzer.Analyze]. A map that
    is absent from the document stays nil, which ranges like the empty
    map. *)
Record PackageJSON : Type := {
  pkgName : gostring;
  pkgVersion : gostring;
  Dependencies : gmap gostring gostring;
  DevDeps : gmap gostring gostring
}.

(** What the analyzers take from outside the package.
    - [Unmarshal] is [encoding/json.Unmarshal] into [PackageJSON];
      [None] is a decoding error.
    - [rangeMap path dev m] is the order in which one [for ... range]
      statement visits the entries of the map [m]; Go leaves that order
      unspecified, each entry is visited once. The statement is
      identified by the file being analyzed and by which of the two maps
      it ranges over. *)
Record Env : Type := {
  Unmarshal : gostring → option PackageJSON;
  rangeMap : gostring → bool → gmap gostring gostring → list (gostring * gostring);
  rangeMap_perm : ∀ path dev m, rangeMap path dev m ≡ₚ map_to_list m
}.

(** The [Analyzer] interface. [Analyze] reads the file first; the result
    of [os.ReadFile(path)] is its second argument ([None]: read error). *)
Record Analyzer : Type := {
  ShouldAnalyze : gostring → bool;
  AnalyzerName : gostring;
  Analyze : gostring → option gostring → option (list Component)
}.

(** [s[lo:hi]]. *)
Definition slice (s : gostring) (lo hi : nat) : gostring :=
  take (hi - lo) (drop lo s).

Definition splitLines (data : gostring) : list gostring :=
  strings.Split data [newline].

Module NPM.

Definition component (name version : gostring) : Component :=
  {| Name := name; Version := version; Supplier := "npm";
     PURL := Sprintf_pkg "npm" name version; Meta := noMetadata |}.

Definition devComponent (name version : gostring) : Component :=
  {| Name := name; Version := version; Supplier := "npm";
     PURL := Sprintf_pkg "npm" name version;
     Meta := {| Description := "development dependency" |} |}.

Definition ShouldAnalyze (path : gostring) : bool :=
  bool_decide (filepath.Base path = "package.json").

Definition Analyze (env : Env) (path : gostring) (file : option gostring)
  : option (list Component) :=
  data ← file;
  pkg ← Unmarshal env data;
  let components :=
    foldl (λ components '(name, version), components ++ [component name version])
          [] (rangeMap env path false (Dependencies pkg)) in
  let components :=
    foldl (λ components '(name, version), components ++ [devComponent name version])
          components (rangeMap env path true (DevDeps pkg)) in
  Some components.

End NPM.

Module PyPI.

Definition component (name version : gostring) : Component :=
  {| Name := name; Version := version; Supplier := "pypi";
     PURL := Sprintf_pkg "pypi" name version; Meta := noMetadata |}.

Definition ShouldAnalyze (path : gostring) : bool :=
  bool_decide (filepath.Base path = "requirements.txt").

(** The body of the loop over the lines. *)
Definition analyzeLine (components : list Component) (line : gostring)
  : list Component :=
  let line := strings.TrimSpace line in
  if bool_decide (line = "") || strings.HasPrefix line "#" then components
  else
    let parts := strings.Split line "==" in
    let parts := if length parts <? 2 then strings.Split line ">=" else parts in
    let parts := if length parts <? 2 then strings.Split line "<=" else parts in
    match parts with
    | part0 :: part1 :: _ =>
        let name := strings.TrimSpace part0 in
        let version := strings.TrimSpace part1 in
        components ++ [component name version]
    | _ => components
    end.

Definition Analyze (path : gostring) (file : option gostring)
  : option (list Component) :=
  data ← file;
  Some (foldl analyzeLine [] (splitLines data)).

End PyPI.

Module Go.

Definition component (name version : gostring) : Component :=
  {| Name := filepath.Base name; Version := version; Supplier := "go";
     PURL := Sprintf_pkg "go" (filepath.Base name) version;
     Meta := noMetadata |}.

Definition ShouldAnalyze (path : gostring) : bool :=
  bool_decide (filepath.Base path = "go.mod").

(** The condition of the [if] that selects the lines to split. *)
Definition candidate (line : gostring) : bool :=
  strings.HasPrefix line "require "
  || (negb (bool_decide (line = "")) && strings.Contains line " ").

Definition analyzeLine (components : list Component) (line : gostring)
  : list Component :=
  let line := strings.TrimSpace line in
  if candidate line then
    match strings.Fields line with
    | part0 :: part1 :: _ =>
        let name := strings.TrimSpace part0 in
        let version := strings.TrimSpace part1 in
        components ++ [component name version]
    | _ => components
    end
  else components.

Definition Analyze (path : gostring) (file : option gostring)
  : option (list Component) :=
  data ← file;
  Some (foldl analyzeLine [] (splitLines data)).

End Go.

Module Cargo.

Definition component (name version : gostring) : Component :=
  {| Name := name; Version := version; Supplier := "cargo";
     PURL := Sprintf_pkg "cargo" name version; Meta := noMetadata |}.

Definition ShouldAnalyze (path : gostring) : bool :=
  bool_decide (filepath.Base path = "Cargo.toml").

(** The version of an inline-table value: the text between its first two
    double quotes; [None] when a quote is missing (nothing is appended). *)
Definition inlineVersion (versionPart : gostring) : option gostring :=
  versionStart ← strings.Index versionPart [dquote];
  versionEnd ← strings.Index (drop (versionStart + 1) versionPart) [dquote];
  Some (slice versionPart (versionStart + 1) (versionStart + versionEnd + 1)).

(** The body of the loop; the state is [(inDependencies, components)]. *)
Definition analyzeLine (st : bool * list Component) (line : gostring)
  : bool * list Component :=
  let '(inDependencies, components) := st in
  let line := strings.TrimSpace line in
  if strings.HasPrefix line "[dependencies]" then (true, components)
  else if strings.HasPrefix line "[" then (false, components)
  else if inDependencies && negb (bool_decide (line = ""))
          && negb (strings.HasPrefix line "#") then
    match strings.SplitN line "=" 2 with
    | [part0; part1] =>
        let name := strings.TrimSpace part0 in
        let versionPart := strings.TrimSpace part1 in
        if strings.HasPrefix versionPart "{" then
          match inlineVersion versionPart with
          | Some version => (inDependencies, components ++ [component name version])
          | None => (inDependencies, components)
          end
        else
          let version := strings.TrimByte versionPart dquote in
          (inDependencies, components ++ [component name version])
    | _ => (inDependencies, components)
    end
  else (inDependencies, components).

Definition Analyze (path : gostring) (file : option gostring)
  : option (list Component) :=
  data ← file;
  Some (foldl analyzeLine (false, []) (splitLines data)).2.

End Cargo.

Module Maven.

Definition component (artifactId version : gostring) : Component :=
  {| Name := artifactId; Version := version; Supplier := "maven";
     PURL := Sprintf_pkg "maven" artifactId version; Meta := noMetadata |}.

Definition ShouldAnalyze (path : gostring) : bool :=
  bool_decide (filepath.Base path = "pom.xml").

Definition extractTag (line tag : gostring) : gostring :=
  let startTag := "<" ++ tag ++ ">" in
  let endTag := "</" ++ tag ++ ">" in
  match strings.Index line startTag with
  | None => ""
  | Some start =>
      let start := start + length startTag in
      match strings.Index (drop start line) endTag with
      | None => ""
      | Some end_ => slice line start (start + end_)
      end
  end.

(** The body of the loop of [parsePomXML]. *)
Definition parseLine (st : bool * list Component) (line : gostring)
  : bool * list Component :=
  let '(inDependencies, components) := st in
  let line := strings.TrimSpace line in
  if strings.Contains line "<dependencies>" then (true, components)
  else if strings.Contains line "</dependencies>" then (false, components)
  else if inDependencies then
    if strings.Contains line "<artifactId>"
       && strings.Contains line "</artifactId>" then
      let artifactId := extractTag line "artifactId" in
      let version := extractTag line "version" in
      if negb (bool_decide (artifactId = "")) && negb (bool_decide (version = ""))
      then (inDependencies, components ++ [component artifactId version])
      else (inDependencies, components)
    else (inDependencies, components)
  else (inDependencies, components).

Definition parsePomXML (xmlContent : gostring) : list Component :=
  (foldl parseLine (false, []) (splitLines xmlContent)).2.

Definition Analyze (path : gostring) (file : option gostring)
  : option (list Component) :=
  data ← file;
  Some (parsePomXML data).

End Maven.

Definition NewNPMAnalyzer (env : Env) : Analyzer :=
  {| ShouldAnalyze := NPM.ShouldAnalyze; AnalyzerName := "npm";
     Analyze := NPM.Analyze env |}.
Definition NewPyPIAnalyzer : Analyzer :=
  {| ShouldAnalyze := PyPI.ShouldAnalyze; AnalyzerName := "pypi";
     Analyze := PyPI.Analyze |}.
Definition NewGoAnalyzer : Analyzer :=
  {| ShouldAnalyze := Go.ShouldAnalyze; AnalyzerName := "go";
     Analyze := Go.Analyze |}.
Definition NewCargoAnalyzer : Analyzer :=
  {| ShouldAnalyze := Cargo.ShouldAnalyze; AnalyzerName := "cargo";
     Analyze := Cargo.Analyze |}.
Definition NewMavenAnalyzer : Analyzer :=
  {| ShouldAnalyze := Maven.ShouldAnalyze; AnalyzerName := "maven";
     Analyze := Maven.Analyze |}.

(** [NewProjectAnalyzer]: the analyzers in registration order. *)
Definition NewProjectAnalyzer (env : Env) : list Analyzer :=
  [NewNPMAnalyzer env; NewPyPIAnalyzer; NewGoAnalyzer; NewCargoAnalyzer;
   NewMavenAnalyzer].

(** ** The file system and [filepath.Walk] *)

Module os.

#[local] Set Warnings "-register-all".

(** A snapshot of the tree below the path handed to [filepath.Walk].
    - [NoEnt]: [os.Lstat] fails on the path (it does not exist, or its
      parent cannot be searched).
    - [File content]: anything that is not a directory; [content] is what
      [os.ReadFile] returns for it, [None] being a read error.
    - [Dir readable entries]: a directory with its entries in the order
      [readDirNames] lists them (sorted by name); when [readable] is
      [false], listing it fails. *)
Inductive node : Type :=
| NoEnt
| File (content : option gostring)
| Dir (readable : bool) (entries : list (gostring * node)).

Record FileInfo : Type := { Name : gostring; IsDir : bool }.

(** The errors that travel through the walk: the two sentinels of
    [path/filepath] and the errors of the file system. *)
Inductive error : Type := SkipDir | SkipAll | PathError.

(** [os.Lstat]: the name of the result is the last element of the path
    ([basename] of package [os], which agrees with [filepath.Base] on every
    path but the empty one, on which [Lstat] fails). *)
Definition Lstat (path : gostring) (n : node) : option FileInfo :=
  match n with
  | NoEnt => None
  | File _ => Some {| Name := filepath.Base path; IsDir := false |}
  | Dir _ _ => Some {| Name := filepath.Base path; IsDir := true |}
  end.

(** [os.ReadFile]: reading a directory is an error. *)
Definition ReadFile (n : node) : option gostring :=
  match n with
  | File content => content
  | _ => None
  end.

End os.

Module Walk.

Import os.

(** A [filepath.WalkFunc] that threads the state [St] it updates. Besides
    the three arguments of the Go function it receives [file], what
    [os.ReadFile(path)] returns in the snapshot, which the Go closure
    obtains by reading the path itself. *)
Definition WalkFunc (St : Type) : Type :=
  gostring → option FileInfo → option error → option gostring → St →
  St * option error.

(** After an entry returned [err], the loop over a directory's entries
    returns it unless it is [SkipDir] coming from a directory or from an
    entry whose [Lstat] failed. *)
Definition stopsLoop (child : node) (err : error) : bool :=
  match child, err with
  | File _, _ => true
  | _, SkipDir => false
  | _, _ => true
  end.

(** [filepath.walk]: the function is called once on every path; on a
    directory it is called with the error of listing it, if any, and the
    entries are walked when both that error and the function's result are
    nil. The case [NoEnt] is the call [walkFn(filename, fileInfo, err)]
    that the callers of [walk] make when [Lstat] fails. *)
Fixpoint walk {St} (walkFn : WalkFunc St) (path : gostring) (n : node) (st : St)
  : St * option error :=
  match n with
  | NoEnt => walkFn path None (Some PathError) (ReadFile n) st
  | File _ => walkFn path (Lstat path n) None (ReadFile n) st
  | Dir readable entries =>
      let err := if readable then None else Some PathError in
      let '(st1, err1) := walkFn path (Lstat path n) err (ReadFile n) st in
      if negb readable || bool_decide (is_Some err1) then (st1, err1)
      else
        (fix loop (names : list (gostring * node)) (st : St) : St * option error :=
           match names with
           | [] => (st, None)
           | (name, child) :: names' =>
               let filename := filepath.Join path name in
               let '(st', err) := walk walkFn filename child st in
               match err with
               | Some e => if stopsLoop child e then (st', Some e) else loop names' st'
               | None => loop names' st'
               end
           end) entries st1
  end.

(** [filepath.Walk]: a failure of [Lstat] on the root is reported to the
    function like any other; [SkipDir] and [SkipAll] end the walk with a
    nil error. *)
Definition Walk {St} (root : gostring) (n : node) (fn : WalkFunc St) (st : St)
  : St * option error :=
  let '(st', err) := walk fn root n st in
  match err with
  | Some SkipDir | Some SkipAll => (st', None)
  | _ => (st', err)
  end.

End Walk.

(** ** [ProjectAnalyzer.AnalyzeDir] *)

Definition prunedNames : list gostring :=
  [lit "node_modules"; lit "vendor"; lit ".git"; lit "dist"; lit "build"].

(** The loop over the analyzers for one visited path. *)
Definition dispatch (analyzers : list Analyzer) (path : gostring)
    (file : option gostring) (allComponents : list Component) : list Component :=
  foldl (λ allComponents analyzer,
           if ShouldAnalyze analyzer path then
             match Analyze analyzer path file with
             | None => allComponents
             | Some components => allComponents ++ components
             end
           else allComponents)
        allComponents analyzers.

(** The closure passed to [filepath.Walk]; its state is [allComponents].
    [filepath.Walk] hands over a nil [info] only together with an error,
    so the branch for a nil [info] and a nil [err], where Go would fail on
    [info.IsDir()], is never taken. *)
Definition walkFn (analyzers : list Analyzer) : Walk.WalkFunc (list Component) :=
  λ path info err file allComponents,
    match err, info with
    | Some _, _ => (allComponents, None)
    | None, None => (allComponents, Some os.PathError)
    | None, Some info =>
        if os.IsDir info && bool_decide (os.Name info ∈ prunedNames)
        then (allComponents, Some os.SkipDir)
        else (dispatch analyzers path file allComponents, None)
    end.

(** [AnalyzeDir dir]: [root] is the snapshot of the tree at [dir]. The
    result is [None] for [nil, fmt.Errorf("directory walk failed: ...")]. *)
Definition AnalyzeDir (env : Env) (dir : gostring) (root : os.node)
  : option (list Component) :=
  let '(allComponents, err) :=
    Walk.Walk dir root (walkFn (NewProjectAnalyzer env)) [] in
  match err with
  | Some _ => None
  | None => Some allComponents
  end.

(** ** Specification-level views of the walk *)

(** The loop of [Walk.walk] over the entries of the directory [path]. *)
Definition walkEntries {St} (fn : Walk.WalkFunc St) (path : gostring)
  : list (gostring * os.node) → St → St * option os.error :=
  fix loop names st :=
    match names with
    | [] => (st, None)
    | (name, child) :: names' =>
        let '(st', err) := Walk.walk fn (filepath.Join path name) child st in
        match err with
        | Some e => if Walk.stopsLoop child e then (st', Some e) else loop names' st'
        | None => loop names' st'
        end
    end.

(** The base name of [path] is one of the pruned names. *)
Definition pruned (path : gostring) : bool :=
  bool_decide (filepath.Base path ∈ prunedNames).

(** The paths on which the analyzers are consulted, in order, each with
    the result of reading it: the files and the readable directories that
    are not below a pruned or unreadable directory. *)
Fixpoint visited (path : gostring) (n : os.node)
  : list (gostring * option gostring) :=
  match n with
  | os.NoEnt => []
  | os.File content => [(path, content)]
  | os.Dir readable entries =>
      if negb readable || pruned path then []
      else (path, None)
           :: flat_map (λ '(name, child), visited (filepath.Join path name) child)
                       entries
  end.

(** The tree with everything below a pruned directory removed. *)
Fixpoint prune (path : gostring) (n : os.node) : os.node :=
  match n with
  | os.Dir readable entries =>
      if pruned path then os.Dir readable []
      else os.Dir readable
             (map (λ '(name, child), (name, prune (filepath.Join path name) child))
                  entries)
  | _ => n
  end.

(** [Reaches path n q m]: in the tree [n] at [path], the node [m] lies at
    the path [q], and every directory from [path] down to the parent of
    [q] is readable and has a base name that is not pruned. *)
Inductive Reaches : gostring → os.node → gostring → os.node → Prop :=
| Reaches_here path n : Reaches path n path n
| Reaches_child path entries name child q m :
    pruned path = false →
    (name, child) ∈ entries →
    Reaches (filepath.Join path name) child q m →
    Reaches path (os.Dir true entries) q m.

(** A name as a directory lists it: not empty and without separator. *)
Definition entryName (name : gostring) : Prop :=
  name ≠ [] ∧ filepath.Separator ∉ name.

(** The records one visited path adds to the aggregate. *)
Definition block (env : Env) (visit : gostring * option gostring)
  : list Component :=
  dispatch (NewProjectAnalyzer env) visit.1 visit.2 [].

Definition manifestNames : list gostring :=
  [lit "package.json"; lit "requirements.txt"; lit "go.mod"; lit "Cargo.toml";
   lit "pom.xml"].

Definition ecosystems : list gostring :=
  [lit "npm"; lit "pypi"; lit "go"; lit "cargo"; lit "maven"].


Definition isDev (c : Component) : bool :=
  bool_decide (Description (Meta c) = "development dependency").


(** ** Fixtures *)

Definition quoted (s : gostring) : gostring := dquote :: s ++ [dquote].

(** [{"dependencies":{"express":"^4.18.0"}}] *)
Definition expressJSON : gostring :=
  "{" ++ quoted "dependencies" ++ ":{" ++ quoted "express" ++ ":"
      ++ quoted "^4.18.0" ++ "}}".

(** [{"dependencies":{"a":"1","b":"2"}}] *)
Definition twoDepsJSON : gostring :=
  "{" ++ quoted "dependencies" ++ ":{" ++ quoted "a" ++ ":" ++ quoted "1"
      ++ "," ++ quoted "b" ++ ":" ++ quoted "2" ++ "}}".

(** What [json.Unmarshal] makes of the two documents above; any other
    input of the fixture is not a JSON document. *)
Definition fixtureUnmarshal (data : gostring) : option PackageJSON :=
  if bool_decide (data = expressJSON) then
    Some {| pkgName := ""; pkgVersion := "";
            Dependencies := {[ lit "express" := lit "^4.18.0" ]};
            DevDeps := ∅ |}
  else if bool_decide (data = twoDepsJSON) then
    Some {| pkgName := ""; pkgVersion := "";
            Dependencies := <[ lit "a" := lit "1" ]> {[ lit "b" := lit "2" ]};
            DevDeps := ∅ |}
  else None.

(** Two iteration orders of the same maps. *)
Definition envForward : Env :=
  {| Unmarshal := fixtureUnmarshal;
     rangeMap := λ _ _ m, map_to_list m;
     rangeMap_perm := λ _ _ m, Permutation_refl (map_to_list m) |}.

Definition envBackward : Env :=
  {| Unmarshal := fixtureUnmarshal;
     rangeMap := λ _ _ m, reverse (map_to_list m);
     rangeMap_perm := λ _ _ m, reverse_Permutation (map_to_list m) |}.

(** A project with a manifest at its root and the same manifest inside
    [node_modules/pkg/]. *)
Definition projectTree : os.node :=
  os.Dir true
    [ (lit "node_modules",
       os.Dir true [ (lit "pkg", os.Dir true [ (lit "package.json",
                                               os.File (Some twoDepsJSON)) ]) ]);
      (lit "package.json", os.File (Some expressJSON)) ].

(** A project whose [package.json] is a directory that holds a
    [requirements.txt]. *)
Definition dirManifestTree : os.node :=
  os.Dir true
    [ (lit "package.json",
       os.Dir true [ (lit "requirements.txt",
                      os.File (Some (lit "flask==2.2.0"))) ]) ].

Definition twoDepsTree : os.node :=
  os.Dir true [ (lit "package.json", os.File (Some twoDepsJSON)) ].

(** An analyzer that matches the paths the npm analyzer matches and
    returns one record without reading anything. *)
Definition probeAnalyzer : Analyzer :=
  {| ShouldAnalyze := NPM.ShouldAnalyze; AnalyzerName := "probe";
     Analyze := λ _ _, Some [NPM.component "probe" "0"] |}.

(** Manifests laid out like those of the package's tests. *)
Definition testPomXML : gostring :=
  "<project>" ++ [newline] ++
  "  <dependencies>" ++ [newline] ++
  "    <dependency>" ++ [newline] ++
  "      <groupId>com.google.guava</groupId>" ++ [newline] ++
  "      <artifactId>guava</artifactId>" ++ [newline] ++
  "      <version>31.1-jre</version>" ++ [newline] ++
  "    </dependency>" ++ [newline] ++
  "  </dependencies>" ++ [newline] ++
  "</project>".

Definition testCargoToml : gostring :=
  "[package]" ++ [newline] ++
  "name = " ++ quoted "test-project" ++ [newline] ++
  "version = " ++ quoted "0.1.0" ++ [newline] ++
  [newline] ++
  "[dependencies]" ++ [newline] ++
  "serde = { version = " ++ quoted "1.0.0" ++ " }" ++ [newline] ++
  "tokio = " ++ quoted "1.28.0".

Definition testGoMod : gostring :=
  "module github.com/hallucinaut/test" ++ [newline] ++
  [newline] ++
  "go 1.21" ++ [newline] ++
  [newline] ++
  "require (" ++ [newline] ++
  tab :: "github.com/gin-gonic/gin v1.9.0" ++ [newline] ++
  tab :: "github.com/go-redis/redis/v8 v8.11.0" ++ [newline] ++
  ")".

Definition testRequirements : gostring :=
  "requests>=2.28.0" ++ [newline] ++
  "flask==2.2.0" ++ [newline] ++
  "numpy~=1.23.0".

(** ** Definitions used by the statements and proofs *)

(** The error [walk] returns with the closure of [AnalyzeDir]: [SkipDir]
    for a pruned directory that can be listed, nil otherwise. *)
Definition walkError (path : gostring) (n : os.node) : option os.error :=
  match n with
  | os.Dir true _ => if pruned path then Some os.SkipDir else None
  | _ => None
  end.

(** The analyzers of one path each add their records after those of the
    analyzers registered before them. *)
Definition output (a : Analyzer) (path : gostring) (file : option gostring)
  : list Component :=
  if ShouldAnalyze a path then default [] (Analyze a path file) else [].

(** The records the analyzers return on the paths [visits], each with
    what reading it gave: path after path, and on one path analyzer after
    analyzer. *)
Definition recordsOf (analyzers : list Analyzer)
    (visits : list (gostring * option gostring)) : list Component :=
  flat_map (λ visit, flat_map (λ a, output a visit.1 visit.2) analyzers) visits.

(** The paths visited below the directory [path] through its entries. *)
Definition visitedBelow (path : gostring) (entries : list (gostring * os.node))
  : list (gostring * option gostring) :=
  flat_map (λ '(name, child), visited (filepath.Join path name) child) entries.



(** The records of a decoded [package.json]: those of "dependencies" in
    the order the map was ranged over, then those of "devDependencies". *)
Definition npmRecords (env : Env) (path : gostring) (pkg : PackageJSON)
  : list Component :=
  (uncurry NPM.component <$> rangeMap env path false (Dependencies pkg))
  ++ (uncurry NPM.devComponent <$> rangeMap env path true (DevDeps pkg)).

(** A project whose only manifest lies in [node_modules/]. *)
Definition insideOnlyTree : os.node :=
  os.Dir true
    [ (lit "node_modules",
       os.Dir true [ (lit "package.json", os.File (Some expressJSON)) ]) ].

(** The manifest below [src/], next to an empty [node_modules/]. *)
Definition outsideTree : os.node :=
  os.Dir true
    [ (lit "node_modules", os.Dir true []);
      (lit "src", os.Dir true [ (lit "package.json", os.File (Some expressJSON)) ]) ].


(** No white-space rune starts anywhere in [f]. *)
Definition noSpace (f : gostring) : Prop :=
  ∀ k, strings.spaceWidth (drop k f) = 0.


(** Decides that a byte does not occur in a literal. *)
Ltac decide_notin := apply (bool_decide_unpack _); vm_compute; exact I.

(** ** [DetectProjectType] *)

(** The [switch] of [DetectProjectType]: the project type a file name
    stands for, [None] when no case matches. *)
Definition signatureType (name : gostring) : option gostring :=
  if bool_decide (name = "package.json") then Some (lit "npm")
  else if bool_decide (name = "requirements.txt") || bool_decide (name = "setup.py")
          || bool_decide (name = "pyproject.toml") then Some (lit "pypi")
  else if bool_decide (name = "go.mod") then Some (lit "go")
  else if bool_decide (name = "Cargo.toml") then Some (lit "cargo")
  else if bool_decide (name = "pom.xml") then Some (lit "maven")
  else None.

(** The loop over the entries: the first name with a case returns. *)
Fixpoint detectLoop (files : list gostring) : gostring :=
  match files with
  | [] => "unknown"
  | name :: files' =>
      match signatureType name with
      | Some projectType => projectType
      | None => detectLoop files'
      end
  end.

(** [DetectProjectType dir]: [files] is what [os.ReadDir(dir)] returns, the
    names of the entries in the order of the listing, [None] for an
    error. *)
Definition DetectProjectType (files : option (list gostring)) : gostring :=
  match files with
  | None => "unknown"
  | Some files => detectLoop files
  end.

(** Go's [<] on strings: the lexicographic order of the bytes, by which
    [os.ReadDir] sorts the names it returns. *)
Fixpoint stringLess (a b : gostring) : bool :=
  match a, b with
  | _, [] => false
  | [], _ :: _ => true
  | x :: a', y :: b' =>
      (N_of_ascii x <? N_of_ascii y)%N || (Ascii.eqb x y && stringLess a' b')
  end.

(** The signature names in the order of Go's [<]. *)
Definition signatureNames : list gostring :=
  [lit "Cargo.toml"; lit "go.mod"; lit "package.json"; lit "pom.xml";
   lit "pyproject.toml"; lit "requirements.txt"; lit "setup.py"].

(** ** Package [formatter] *)

Module formatter.

(** The implementations of the [Formatter] interface. *)
Inductive Formatter : Type :=
| JSONFormatter
| YAMLFormatter
| MarkdownFormatter
| TableFormatter
| SPDXFormatter
| CycloneDXFormatter.

(** The method [Name]. *)
Definition Name (f : Formatter) : gostring :=
  match f with
  | JSONFormatter => "json"
  | YAMLFormatter => "yaml"
  | MarkdownFormatter => "markdown"
  | TableFormatter => "table"
  | SPDXFormatter => "spdx"
  | CycloneDXFormatter => "cyclonedx"
  end.

(** [GetFormatter]. *)
Definition GetFormatter (format : gostring) : Formatter :=
  if bool_decide (format = "json") then JSONFormatter
  else if bool_decide (format = "yaml") then YAMLFormatter
  else if bool_decide (format = "markdown") then MarkdownFormatter
  else if bool_decide (format = "table") then TableFormatter
  else if bool_decide (format = "spdx") then SPDXFormatter
  else if bool_decide (format = "cyclonedx") then CycloneDXFormatter
  else JSONFormatter.

(** [truncate]; [max] is a Go [int]. [None] is the run-time panic of the
    slice expression [s[:max-3]] when [max - 3] is negative; its upper
    bound is in range, since this branch has [len(s) > max]. *)
Definition truncate (s : gostring) (max : Z) : option gostring :=
  if (Z.of_nat (length s) <=? max)%Z then Some s
  else if (max - 3 <? 0)%Z then None
  else Some (take (Z.to_nat (max - 3)) s ++ "...").

(** The package URL as [TableFormatter.Format] shortens it before it
    hands it to [truncate]. *)
Definition shortPURL (purl : gostring) : gostring :=
  if 35 <? length purl then take 32 purl ++ "..." else purl.

(** The last cell of a row of [TableFormatter.Format]. *)
Definition purlCell (purl : gostring) : option gostring :=
  truncate (shortPURL purl) 12.

End formatter.

(** ** Package [main] *)

Module main.

(** [truncate], declared a second time in package [main]. *)
Definition truncate (s : gostring) (max : Z) : option gostring :=
  if (Z.of_nat (length s) <=? max)%Z then Some s
  else if (max - 3 <? 0)%Z then None
  else Some (take (Z.to_nat (max - 3)) s ++ "...").

(** The package URL as [analyze] shortens it before it hands it to
    [truncate]. *)
Definition shortPURL (purl : gostring) : gostring :=
  if 12 <? length purl then take 9 purl ++ "..." else purl.

(** The last cell of a row printed by [analyze]. *)
Definition purlCell (purl : gostring) : option gostring :=
  truncate (shortPURL purl) 12.

(** The three variables the loop of [generate] assigns. *)
Record Options : Type := {
  outputFile : gostring;
  outputFormat : gostring;
  projectDir : gostring
}.

Definition noOptions : Options :=
  {| outputFile := ""; outputFormat := ""; projectDir := "" |}.

Definition outputFlags : list gostring := [lit "-o"; lit "--output"].
Definition formatFlags : list gostring := [lit "-f"; lit "--format"].
Definition dirFlags : list gostring := [lit "-d"; lit "--dir"].

(** The loop of [generate] over its arguments: a flag takes the argument
    that follows it, when there is one, and the loop goes on after that
    argument; any other argument is passed over. *)
Fixpoint generateArgs (opts : Options) (args : list gostring) : Options :=
  match args with
  | [] => opts
  | arg :: args' =>
      if bool_decide (arg ∈ outputFlags) then
        match args' with
        | value :: args'' =>
            generateArgs {| outputFile := value; outputFormat := outputFormat opts;
                            projectDir := projectDir opts |} args''
        | [] => opts
        end
      else if bool_decide (arg ∈ formatFlags) then
        match args' with
        | value :: args'' =>
            generateArgs {| outputFile := outputFile opts; outputFormat := value;
                            projectDir := projectDir opts |} args''
        | [] => opts
        end
      else if bool_decide (arg ∈ dirFlags) then
        match args' with
        | value :: args'' =>
            generateArgs {| outputFile := outputFile opts;
                            outputFormat := outputFormat opts;
                            projectDir := value |} args''
        | [] => opts
        end
      else generateArgs opts args'
  end.

(** The loop of [analyze] over its arguments. *)
Fixpoint analyzeArgs (projectDir : gostring) (args : list gostring) : gostring :=
  match args with
  | [] => projectDir
  | arg :: args' =>
      if negb (bool_decide (arg = "-d")) && negb (bool_decide (arg = "--dir"))
      then analyzeArgs projectDir args'
      else match args' with
           | value :: args'' => analyzeArgs value args''
           | [] => projectDir
           end
  end.

(** The directory both commands work on: [.] when none was given. *)
Definition directory (projectDir : gostring) : gostring :=
  if bool_decide (projectDir = "") then "." else projectDir.

(** The formatter [generate] serializes with: the one of the format given,
    of [json] when none was. *)
Definition generateFormatter (args : list gostring) : formatter.Formatter :=
  let outputFormat := outputFormat (generateArgs noOptions args) in
  let outputFormat :=
    if bool_decide (outputFormat = "") then lit "json" else outputFormat in
  formatter.GetFormatter outputFormat.

End main.

(** A command line as its author reads it: options with their values, and
    positional arguments. *)
Inductive item : Type :=
| Opt (flag value : gostring)
| Positional (arg : gostring).

Definition tokens (items : list item) : list gostring :=
  flat_map (λ it, match it with
                  | Opt flag value => [flag; value]
                  | Positional arg => [arg]
                  end) items.

Definition generateFlags : list gostring :=
  main.outputFlags ++ main.formatFlags ++ main.dirFlags.

(** The options are spelled with flags of [generate] and the positional
    arguments are no flags. *)
Definition wellFormedItem (it : item) : Prop :=
  match it with
  | Opt flag _ => flag ∈ generateFlags
  | Positional arg => arg ∉ generateFlags
  end.

(** The value of the last option spelled with one of [flags], [init] when
    there is none. *)
Definition lastValue (flags : list gostring) (init : gostring) (items : list item)
  : gostring :=
  foldl (λ acc it, match it with
                   | Opt flag value => if bool_decide (flag ∈ flags) then value else acc
                   | Positional _ => acc
                   end) init items.

(** Nothing on the path, nothing readable on it, or a directory that
    cannot be listed. *)
Definition unreadable (n : os.node) : Prop :=
  n = os.NoEnt ∨ n = os.File None ∨ ∃ entries, n = os.Dir false entries.

(** [s] neither starts nor ends with a white-space rune. *)
Definition trimmed (s : gostring) : Prop :=
  strings.spaceWidth s = 0 ∧ strings.lastSpaceWidth s = 0.

(** * Properties *)

(** ** The embedding on the package's own fixtures

    What the analyzers return on manifests laid out like those of the
    package's tests. The tests expect three records from the
    [requirements.txt], two from the [go.mod] and two from the [pom.xml];
    the analyzers return two, five and none. *)

Example Split_ex :
  strings.Split "a==1==2" "==" = [lit "a"; lit "1"; lit "2"].
Proof. reflexivity. Qed.

Example Fields_ex :
  strings.Fields (tab :: lit "a/b  v1 " ++ [tab]) = [lit "a/b"; lit "v1"].
Proof. reflexivity. Qed.

Example TrimSpace_ex :
  strings.TrimSpace (tab :: lit " a b " ++ ["194"; "160"]%char) = lit "a b".
Proof. reflexivity. Qed.

Example Base_ex :
  filepath.Base "github.com/go-redis/redis/v8" = lit "v8" ∧
  filepath.Base "a/b//" = lit "b" ∧ filepath.Base "//" = lit "/" ∧
  filepath.Base "abc" = lit "abc" ∧ filepath.Base "" = lit ".".
Proof. repeat split; reflexivity. Qed.

Example Cargo_test_manifest :
  Cargo.Analyze "Cargo.toml" (Some testCargoToml)
  = Some [Cargo.component "serde" "1.0.0"; Cargo.component "tokio" "1.28.0"].
Proof. vm_compute. reflexivity. Qed.

Example PyPI_test_manifest :
  PyPI.Analyze "requirements.txt" (Some testRequirements)
  = Some [PyPI.component "requests" "2.28.0"; PyPI.component "flask" "2.2.0"].
Proof. vm_compute. reflexivity. Qed.

Example Go_test_manifest :
  Go.Analyze "go.mod" (Some testGoMod)
  = Some [Go.component "module" "github.com/hallucinaut/test";
          Go.component "go" "1.21";
          Go.component "require" "(";
          Go.component "github.com/gin-gonic/gin" "v1.9.0";
          Go.component "github.com/go-redis/redis/v8" "v8.11.0"].
Proof. vm_compute. reflexivity. Qed.

Example Maven_test_manifest :
  Maven.Analyze "pom.xml" (Some testPomXML) = Some [].
Proof. vm_compute. reflexivity. Qed.

Example AnalyzeDir_project :
  AnalyzeDir envForward "/proj" projectTree
  = Some [NPM.component "express" "^4.18.0"].
Proof. vm_compute. reflexivity. Qed.

(** ** The walk *)

Section node_induction.
Variable P : os.node → Prop.
Hypothesis P_NoEnt : P os.NoEnt.
Hypothesis P_File : ∀ content, P (os.File content).
Hypothesis P_Dir :
  ∀ readable entries, Forall (λ e, P e.2) entries → P (os.Dir readable entries).

Fixpoint node_induction (n : os.node) : P n :=
  match n with
  | os.NoEnt => P_NoEnt
  | os.File content => P_File content
  | os.Dir readable entries =>
      P_Dir readable entries
        ((fix all (es : list (gostring * os.node)) : Forall (λ e, P e.2) es :=
            match es with
            | [] => List.Forall_nil _
            | e :: es' => List.Forall_cons _ e es' (node_induction e.2) (all es')
            end) entries)
  end.
End node_induction.

Lemma walk_Dir {St} (fn : Walk.WalkFunc St) path readable entries st :
  Walk.walk fn path (os.Dir readable entries) st
  = let err := if readable then None else Some os.PathError in
    let '(st1, err1) :=
      fn path (os.Lstat path (os.Dir readable entries)) err
         (os.ReadFile (os.Dir readable entries)) st in
    if negb readable || bool_decide (is_Some err1) then (st1, err1)
    else walkEntries fn path entries st1.
Proof. reflexivity. Qed.

Lemma dispatch_app analyzers path file st :
  dispatch analyzers path file st = st ++ dispatch analyzers path file [].
Proof.
  unfold dispatch. revert st.
  induction analyzers as [|a analyzers IH]; intros st; simpl.
  - by rewrite app_nil_r.
  - rewrite IH. symmetry. rewrite IH. symmetry.
    destruct (ShouldAnalyze a path); [|done].
    destruct (Analyze a path file) as [cs|]; simpl; [|done].
    by rewrite app_assoc.
Qed.

Lemma walk_visited analyzers path n st :
  Walk.walk (walkFn analyzers) path n st
  = (st ++ flat_map (λ v, dispatch analyzers v.1 v.2 []) (visited path n),
     walkError path n).
Proof.
  revert path st. induction n as [|content|readable entries IH] using node_induction;
    intros path st.
  - simpl. by rewrite app_nil_r.
  - simpl. rewrite dispatch_app. by rewrite app_nil_r.
  - rewrite walk_Dir. destruct readable; simpl; [|by rewrite app_nil_r].
    unfold pruned. destruct (bool_decide (filepath.Base path ∈ prunedNames)); simpl.
    { by rewrite app_nil_r. }
    rewrite (dispatch_app _ _ _ st), app_assoc.
    generalize (st ++ dispatch analyzers path None []) as acc. clear st.
    induction IH as [|[name child] entries Hchild _ IHentries]; intros acc; simpl.
    + by rewrite app_nil_r.
    + simpl in Hchild. rewrite Hchild.
      assert (Hgo : ∀ e, walkError (filepath.Join path name) child = Some e →
                          Walk.stopsLoop child e = false).
      { intros e. destruct child as [| |[] ?]; simpl; try done.
        destruct (pruned _); [|done]. by intros [= <-]. }
      destruct (walkError (filepath.Join path name) child) as [e|] eqn:He.
      * rewrite (Hgo e eq_refl). rewrite IHentries.
        by rewrite flat_map_app, !app_assoc.
      * rewrite IHentries. by rewrite flat_map_app, !app_assoc.
Qed.

(** [AnalyzeDir] never returns an error; its result is the concatenation
    of the blocks of the visited paths. *)
Lemma AnalyzeDir_visited env dir root :
  AnalyzeDir env dir root = Some (flat_map (block env) (visited dir root)).
Proof.
  unfold AnalyzeDir, Walk.Walk. rewrite walk_visited. simpl.
  destruct root as [| |[] ?]; simpl; try done.
  by destruct (pruned dir).
Qed.

Lemma AnalyzeDir_never_fails env dir root : is_Some (AnalyzeDir env dir root).
Proof. rewrite AnalyzeDir_visited. by eexists. Qed.

Lemma dispatch_cons a analyzers path file :
  dispatch (a :: analyzers) path file []
  = output a path file ++ dispatch analyzers path file [].
Proof.
  transitivity (dispatch analyzers path file (output a path file)).
  - unfold output, dispatch. simpl.
    destruct (ShouldAnalyze a path); [|done].
    by destruct (Analyze a path file).
  - apply dispatch_app.
Qed.

Lemma dispatch_outputs analyzers path file :
  dispatch analyzers path file [] = flat_map (λ a, output a path file) analyzers.
Proof.
  induction analyzers as [|a analyzers IH]; [done|].
  rewrite dispatch_cons, IH. reflexivity.
Qed.

Lemma flat_map_elem_split {A B} (f : A → list B) (x : A) (l : list A) :
  x ∈ l → ∃ pre post, flat_map f l = pre ++ f x ++ post.
Proof.
  intros (l1 & l2 & ->)%list_elem_of_split.
  exists (flat_map f l1), (flat_map f l2). by rewrite flat_map_app.
Qed.

(** ** Paths *)

Lemma trimLeftByte_head (c b : ascii) (s : gostring) :
  b ≠ c → strings.trimLeftByte (b :: s) c = b :: s.
Proof. intros Hne. simpl. by destruct (Ascii.eqb_spec b c). Qed.

Lemma trimRightByte_last (c : ascii) (s : gostring) (b : ascii) :
  b ≠ c → strings.trimRightByte (s ++ [b]) c = s ++ [b].
Proof.
  intros Hne. unfold strings.trimRightByte.
  rewrite rev_app_distr.
  change (rev [b] ++ rev s) with (b :: rev s).
  rewrite trimLeftByte_head by done.
  change (b :: rev s) with (rev [b] ++ rev s).
  by rewrite <- rev_app_distr, rev_involutive.
Qed.

Lemma afterLastSep_app (path name : gostring) :
  filepath.Separator ∉ name →
  filepath.afterLastSep (path ++ filepath.Separator :: name) = name.
Proof.
  intros Hname. induction path as [|c path IH]; simpl.
  - by rewrite bool_decide_eq_false_2.
  - rewrite bool_decide_eq_true_2; [done|]. set_solver.
Qed.


(** The base name of the path [filepath.Walk] builds for an entry is the
    entry's name. *)
Lemma Base_Join path name :
  entryName name → filepath.Base (filepath.Join path name) = name.
Proof.
  intros [Hne Hsep]. unfold filepath.Base, filepath.Join.
  destruct (path ++ lit "/" ++ name) as [|c0 s0] eqn:Heq.
  { by destruct path, name. }
  rewrite <- Heq. clear Heq c0 s0.
  destruct (exists_last Hne) as (name' & b & ->).
  assert (b ≠ filepath.Separator) by set_solver.
  change (lit "/" ++ name' ++ [b]) with (filepath.Separator :: (name' ++ [b])).
  replace (path ++ filepath.Separator :: name' ++ [b])
    with ((path ++ filepath.Separator :: name') ++ [b])
    by (by rewrite <- app_assoc).
  rewrite trimRightByte_last by done.
  rewrite <- app_assoc. simpl.
  rewrite afterLastSep_app by done.
  by destruct name'.
Qed.

(** ** Records *)

Lemma foldl_Forall {A B} (P : B → Prop) (f : list B → A → list B) l acc :
  (∀ acc a, Forall P acc → Forall P (f acc a)) →
  Forall P acc → Forall P (foldl f acc l).
Proof. intros Hf. revert acc. induction l; simpl; auto. Qed.

Lemma foldl_Forall_snd {A B} (P : B → Prop) (f : bool * list B → A → bool * list B)
    l st :
  (∀ st a, Forall P st.2 → Forall P (f st a).2) →
  Forall P st.2 → Forall P (foldl f st l).2.
Proof. intros Hf. revert st. induction l; simpl; auto. Qed.

Lemma Forall_snoc {B} (P : B → Prop) (l : list B) (x : B) :
  Forall P l → P x → Forall P (l ++ [x]).
Proof. intros. apply Forall_app. split; [done|]. by constructor. Qed.









(** ** npm *)

Lemma foldl_snoc {A B C} (f : A → B → C) (l : list (A * B)) (acc : list C) :
  foldl (λ acc '(x, y), acc ++ [f x y]) acc l = acc ++ (uncurry f <$> l).
Proof.
  revert acc. induction l as [|[x y] l IH]; intros acc; simpl.
  - by rewrite app_nil_r.
  - by rewrite IH, <- app_assoc.
Qed.

Lemma NPM_Analyze_records env path file :
  NPM.Analyze env path file
  = data ← file; pkg ← Unmarshal env data; Some (npmRecords env path pkg).
Proof.
  unfold NPM.Analyze, npmRecords. destruct file as [data|]; [simpl|done].
  destruct (Unmarshal env data) as [pkg|]; [simpl|done].
  by rewrite !foldl_snoc.
Qed.

Lemma filter_dev_component (l : list (gostring * gostring)) :
  filter (λ c, isDev c = true) (uncurry NPM.component <$> l) = [].
Proof.
  induction l as [|[n v] l IH]; [done|].
  rewrite fmap_cons, filter_cons_False; done.
Qed.

Lemma filter_dev_devComponent (l : list (gostring * gostring)) :
  filter (λ c, isDev c = true) (uncurry NPM.devComponent <$> l)
  = uncurry NPM.devComponent <$> l.
Proof.
  induction l as [|[n v] l IH]; [done|].
  rewrite fmap_cons, filter_cons_True by done. by rewrite IH.
Qed.

(** A path that is a [package.json] matches no other analyzer. *)
Lemma block_package_json env path file :
  NPM.ShouldAnalyze path = true →
  block env (path, file) = default [] (NPM.Analyze env path file).
Proof.
  intros Hnpm. unfold block. rewrite dispatch_outputs. simpl.
  unfold output; simpl. rewrite Hnpm.
  apply bool_decide_eq_true in Hnpm.
  unfold PyPI.ShouldAnalyze, Go.ShouldAnalyze, Cargo.ShouldAnalyze,
    Maven.ShouldAnalyze. rewrite Hnpm.
  rewrite !bool_decide_eq_false_2 by done.
  by rewrite app_nil_r.
Qed.

(** C3: a [package.json] that decodes to N "dependencies" and M
    "devDependencies" yields exactly N+M records: one per entry of each
    map, in some order within each map, the dependencies first; exactly
    the M records of "devDependencies" carry the development mark; every
    record has supplier "npm" and package URL "pkg:npm/" name "@" version.
    When decoding fails, the analyzer fails and the file adds nothing to
    the aggregate. *)
Theorem C3_npm_records env path data :
  (∀ pkg, Unmarshal env data = Some pkg →
     ∃ deps devs,
       NPM.Analyze env path (Some data) = Some (deps ++ devs) ∧
       deps ≡ₚ uncurry NPM.component <$> map_to_list (Dependencies pkg) ∧
       devs ≡ₚ uncurry NPM.devComponent <$> map_to_list (DevDeps pkg) ∧
       length (deps ++ devs) = size (Dependencies pkg) + size (DevDeps pkg) ∧
       filter (λ c, isDev c = true) (deps ++ devs) = devs ∧
       length devs = size (DevDeps pkg) ∧
       Forall (λ c, Supplier c = "npm"
                    ∧ PURL c = "pkg:npm/" ++ Name c ++ "@" ++ Version c)
              (deps ++ devs)) ∧
  (Unmarshal env data = None →
     NPM.Analyze env path (Some data) = None ∧
     (NPM.ShouldAnalyze path = true → block env (path, Some data) = [])).
Proof.
  split.
  - intros pkg Hpkg.
    exists (uncurry NPM.component <$> rangeMap env path false (Dependencies pkg)),
           (uncurry NPM.devComponent <$> rangeMap env path true (DevDeps pkg)).
    assert (Hdeps := rangeMap_perm env path false (Dependencies pkg)).
    assert (Hdevs := rangeMap_perm env path true (DevDeps pkg)).
    split_and!.
    + rewrite NPM_Analyze_records. simpl. by rewrite Hpkg.
    + by rewrite Hdeps.
    + by rewrite Hdevs.
    + rewrite length_app, !length_fmap, Hdeps, Hdevs.
      by rewrite !length_map_to_list.
    + by rewrite filter_app, filter_dev_component, filter_dev_devComponent.
    + by rewrite length_fmap, Hdevs, length_map_to_list.
    + apply Forall_app. split; apply Forall_fmap, Forall_true; by intros [n v].
  - intros Hnone.
    assert (Hfail : NPM.Analyze env path (Some data) = None).
    { rewrite NPM_Analyze_records. simpl. by rewrite Hnone. }
    split; [done|]. intros Hnpm. rewrite block_package_json by done.
    by rewrite Hfail.
Qed.

Lemma C3_npm_records_witness :
  (∃ deps devs,
     NPM.Analyze envForward "/proj/package.json" (Some twoDepsJSON)
     = Some (deps ++ devs) ∧ length (deps ++ devs) = 2 + 0) ∧
  block envForward (lit "/proj/package.json", Some (lit "{")) = [].
Proof.
  destruct (C3_npm_records envForward "/proj/package.json" twoDepsJSON)
    as [Hok _].
  destruct (C3_npm_records envForward "/proj/package.json" "{") as [_ Hbad].
  split.
  - destruct (Hok _ eq_refl) as (deps & devs & Heq & _ & _ & Hlen & _).
    exists deps, devs. split; [exact Heq|exact Hlen].
  - apply Hbad; reflexivity.
Defined.

(** ** The pipeline *)

(** C1 (defect of the code): when [os.Lstat] fails on the root path, so
    that the walk cannot start, [filepath.Walk] reports the failure to the
    closure, the closure returns nil for it as for any other walk error,
    and [AnalyzeDir] returns no records with a nil error instead of the
    "directory walk failed" error. No tree at all makes [AnalyzeDir]
    return an error. *)
Theorem C1_missing_root_returns_nil_error env dir :
  AnalyzeDir env dir os.NoEnt = Some []
  ∧ ∀ root, is_Some (AnalyzeDir env dir root).
Proof. split; [reflexivity|]. intros root. apply AnalyzeDir_never_fails. Qed.

Lemma visited_prune path n : visited path (prune path n) = visited path n.
Proof.
  revert path. induction n as [|content|readable entries IH] using node_induction;
    intros path; [done..|].
  simpl. destruct (pruned path) eqn:Hp; simpl; rewrite Hp.
  { by rewrite orb_true_r. }
  destruct readable; [simpl|done]. f_equal.
  induction IH as [|[name child] entries Hchild _ IHentries]; [done|].
  simpl. by rewrite Hchild, IHentries.
Qed.

Lemma Reaches_visited path n q content :
  Reaches path n q (os.File content) → (q, content) ∈ visited path n.
Proof.
  remember (os.File content) as m eqn:Hm.
  induction 1 as [path n|path entries name child q m Hp Hin _ IH]; subst.
  - simpl. set_solver.
  - simpl. rewrite Hp. simpl. right.
    apply list_elem_of_In, in_flat_map.
    exists (name, child). split; [by apply list_elem_of_In|].
    apply list_elem_of_In. by apply IH.
Qed.

Lemma output_in_block env a path file cs :
  a ∈ NewProjectAnalyzer env → ShouldAnalyze a path = true →
  Analyze a path file = Some cs →
  ∃ pre post, block env (path, file) = pre ++ cs ++ post.
Proof.
  intros Ha Hshould Hcs. unfold block. rewrite dispatch_outputs. cbn [fst snd].
  destruct (flat_map_elem_split (λ a, output a path file) a _ Ha)
    as (pre & post & ->).
  exists pre, post. unfold output. by rewrite Hshould, Hcs.
Qed.

(** C2: the aggregate does not depend on anything that lies below a
    directory whose base name is one of the pruned names, at any depth:
    two trees that are equal once the contents of those directories are
    removed give the same aggregate. A manifest that is reached through
    readable directories none of which has a pruned base name contributes
    the records of its analyzer, as one run of consecutive records. The
    base name of an entry's path is the entry's name, so an entry is
    pruned exactly when its name is one of the five names. *)
Theorem C2_pruned_directories env dir root :
  (∀ root', prune dir root' = prune dir root →
     AnalyzeDir env dir root' = AnalyzeDir env dir root) ∧
  (∀ q data a cs,
     Reaches dir root q (os.File (Some data)) →
     a ∈ NewProjectAnalyzer env → ShouldAnalyze a q = true →
     Analyze a q (Some data) = Some cs →
     ∃ pre post, AnalyzeDir env dir root = Some (pre ++ cs ++ post)) ∧
  (∀ path name, entryName name →
     pruned (filepath.Join path name) = bool_decide (name ∈ prunedNames)).
Proof.
  split_and!.
  - intros root' Heq. rewrite !AnalyzeDir_visited.
    by rewrite <- (visited_prune dir root'), Heq, visited_prune.
  - intros q data a cs Hreach Ha Hshould Hcs.
    rewrite AnalyzeDir_visited.
    apply Reaches_visited in Hreach.
    destruct (flat_map_elem_split (block env) _ _ Hreach) as (pre & post & ->).
    destruct (output_in_block env a q (Some data) cs Ha Hshould Hcs)
      as (pre' & post' & ->).
    exists (pre ++ pre'), (post' ++ post). by rewrite <- !app_assoc.
  - intros path name Hname. unfold pruned. by rewrite Base_Join.
Qed.

Lemma C2_pruned_directories_witness :
  AnalyzeDir envForward "/proj" insideOnlyTree
  = AnalyzeDir envForward "/proj" (os.Dir true [(lit "node_modules", os.Dir true [])])
  ∧ ∃ pre post, AnalyzeDir envForward "/proj" outsideTree
                = Some (pre ++ [NPM.component "express" "^4.18.0"] ++ post).
Proof.
  split.
  - apply (proj1 (C2_pruned_directories envForward "/proj"
                    (os.Dir true [(lit "node_modules", os.Dir true [])]))).
    reflexivity.
  - apply (proj1 (proj2 (C2_pruned_directories envForward "/proj" outsideTree))
             "/proj/src/package.json" expressJSON (NewNPMAnalyzer envForward)).
    + apply (Reaches_child _ _ "src"
               (os.Dir true [(lit "package.json", os.File (Some expressJSON))]));
        [reflexivity| |].
      * apply list_elem_of_further, list_elem_of_here.
      * apply (Reaches_child _ _ "package.json" (os.File (Some expressJSON)));
          [reflexivity|apply list_elem_of_here|apply Reaches_here].
    + apply list_elem_of_here.
    + reflexivity.
    + reflexivity.
Defined.



Lemma npmRecords_perm env1 env2 path pkg :
  npmRecords env1 path pkg ≡ₚ npmRecords env2 path pkg.
Proof.
  unfold npmRecords.
  by rewrite !(rangeMap_perm env1), !(rangeMap_perm env2).
Qed.

Lemma block_runs env1 env2 visit :
  Unmarshal env1 = Unmarshal env2 →
  block env1 visit ≡ₚ block env2 visit
  ∧ (NPM.ShouldAnalyze visit.1 = false → block env1 visit = block env2 visit).
Proof.
  intros Hjson. destruct visit as [path file]. unfold block.
  rewrite !dispatch_outputs. cbn [fst snd NewProjectAnalyzer flat_map].
  split.
  - apply Permutation_app_tail. unfold output.
    cbn [ShouldAnalyze Analyze NewNPMAnalyzer].
    destruct (NPM.ShouldAnalyze path); [|done].
    rewrite !NPM_Analyze_records, Hjson.
    destruct file as [data|]; [simpl|done].
    destruct (Unmarshal env2 data) as [pkg|]; [simpl|done].
    apply npmRecords_perm.
  - intros Hnpm. f_equal. unfold output.
    cbn [ShouldAnalyze Analyze NewNPMAnalyzer]. by rewrite Hnpm.
Qed.

Lemma flat_map_perm {A B} (f g : A → list B) (l : list A) :
  Forall (λ x, f x ≡ₚ g x) l → flat_map f l ≡ₚ flat_map g l.
Proof.
  induction 1 as [|x l Hx _ IH]; simpl; [done|]. by rewrite Hx, IH.
Qed.

(** C9 as stated fails: with a [package.json] whose "dependencies" map has
    two entries, two runs that range over the map in different orders
    return the two records in different orders. *)
Lemma C9_map_order_counterexample :
  Unmarshal envForward = Unmarshal envBackward ∧
  AnalyzeDir envForward "/proj" twoDepsTree
  = Some [NPM.component "b" "2"; NPM.component "a" "1"] ∧
  AnalyzeDir envBackward "/proj" twoDepsTree
  = Some [NPM.component "a" "1"; NPM.component "b" "2"] ∧
  AnalyzeDir envForward "/proj" twoDepsTree
  ≠ AnalyzeDir envBackward "/proj" twoDepsTree.
Proof.
  split; [reflexivity|]. split; [vm_compute; reflexivity|].
  split; [vm_compute; reflexivity|]. vm_compute. discriminate.
Qed.

(** C9 (amended): two runs over an unchanged directory, which decode the
    same documents but may range over maps in different orders, visit the
    same paths in the same order and obtain from each path the same
    records; the records of one path come in the same order unless the
    path is a [package.json], whose records may be permuted. The two
    aggregates hold the same records, each as many times. *)
Theorem C9_runs_agree_up_to_map_order env1 env2 dir root :
  Unmarshal env1 = Unmarshal env2 →
  let paths := visited dir root in
  AnalyzeDir env1 dir root = Some (flat_map (block env1) paths) ∧
  AnalyzeDir env2 dir root = Some (flat_map (block env2) paths) ∧
  Forall (λ visit,
            block env1 visit ≡ₚ block env2 visit
            ∧ (NPM.ShouldAnalyze visit.1 = false
               → block env1 visit = block env2 visit)) paths ∧
  flat_map (block env1) paths ≡ₚ flat_map (block env2) paths.
Proof.
  intros Hjson paths. rewrite !AnalyzeDir_visited.
  assert (Hblocks : Forall (λ visit,
            block env1 visit ≡ₚ block env2 visit
            ∧ (NPM.ShouldAnalyze visit.1 = false
               → block env1 visit = block env2 visit)) paths).
  { apply Forall_true. intros visit. by apply block_runs. }
  split_and!; try done.
  apply flat_map_perm. eapply Forall_impl; [exact Hblocks|]. by intros v [].
Qed.

Lemma C9_runs_agree_up_to_map_order_witness :
  AnalyzeDir envForward "/proj" twoDepsTree
  = Some (flat_map (block envForward) (visited "/proj" twoDepsTree)) ∧
  flat_map (block envForward) (visited "/proj" twoDepsTree)
  ≡ₚ flat_map (block envBackward) (visited "/proj" twoDepsTree).
Proof.
  destruct (C9_runs_agree_up_to_map_order envForward envBackward "/proj"
              twoDepsTree eq_refl) as (H1 & _ & _ & Hperm).
  split; [exact H1|exact Hperm].
Defined.

(** The manifest names and the pruned names are different names. *)
Lemma manifest_not_pruned path :
  filepath.Base path ∈ manifestNames → pruned path = false.
Proof.
  unfold pruned, manifestNames. rewrite !elem_of_cons, elem_of_nil.
  intros [->|[->|[->|[->|[->|[]]]]]]; reflexivity.
Qed.

Lemma manifest_matched env path :
  filepath.Base path ∈ manifestNames →
  ∃ a, a ∈ NewProjectAnalyzer env ∧ ShouldAnalyze a path = true.
Proof.
  unfold manifestNames, NewProjectAnalyzer. rewrite !elem_of_cons, elem_of_nil.
  intros [H|[H|[H|[H|[H|[]]]]]];
    [exists (NewNPMAnalyzer env)|exists NewPyPIAnalyzer|exists NewGoAnalyzer
    |exists NewCargoAnalyzer|exists NewMavenAnalyzer];
    (split; [set_solver|]); simpl;
    unfold NPM.ShouldAnalyze, PyPI.ShouldAnalyze, Go.ShouldAnalyze,
      Cargo.ShouldAnalyze, Maven.ShouldAnalyze; by rewrite H.
Qed.

Lemma Analyze_read_error env a path :
  a ∈ NewProjectAnalyzer env → Analyze a path None = None.
Proof.
  unfold NewProjectAnalyzer. rewrite !elem_of_cons, elem_of_nil.
  intros [->|[->|[->|[->|[->|[]]]]]]; reflexivity.
Qed.

Lemma dispatch_read_error env path st :
  dispatch (NewProjectAnalyzer env) path None st = st.
Proof. rewrite dispatch_app. simpl. repeat case_match; by rewrite ?app_nil_r. Qed.

Lemma flat_map_block env visits :
  flat_map (block env) visits = recordsOf (NewProjectAnalyzer env) visits.
Proof.
  unfold recordsOf. induction visits as [|visit visits IH]; [done|].
  simpl. rewrite IH. f_equal. apply dispatch_outputs.
Qed.

Lemma recordsOf_app analyzers visits1 visits2 :
  recordsOf analyzers (visits1 ++ visits2)
  = recordsOf analyzers visits1 ++ recordsOf analyzers visits2.
Proof. apply flat_map_app. Qed.

Lemma recordsOf_directory env path visits :
  recordsOf (NewProjectAnalyzer env) ((path, None) :: visits)
  = recordsOf (NewProjectAnalyzer env) visits.
Proof.
  unfold recordsOf. cbn [flat_map fst snd].
  by rewrite <- dispatch_outputs, dispatch_read_error.
Qed.

Lemma visitedBelow_app path entries1 entries2 :
  visitedBelow path (entries1 ++ entries2)
  = visitedBelow path entries1 ++ visitedBelow path entries2.
Proof. apply flat_map_app. Qed.

Lemma visitedBelow_cons path name child entries :
  visitedBelow path ((name, child) :: entries)
  = visited (filepath.Join path name) child ++ visitedBelow path entries.
Proof. reflexivity. Qed.

Lemma AnalyzeDir_below env dir entries :
  pruned dir = false →
  AnalyzeDir env dir (os.Dir true entries)
  = Some (recordsOf (NewProjectAnalyzer env) (visitedBelow dir entries)).
Proof.
  intros Hdir. rewrite AnalyzeDir_visited. cbn [visited negb orb].
  rewrite Hdir. fold (visitedBelow dir entries).
  by rewrite flat_map_block, recordsOf_directory.
Qed.

Lemma visited_manifest_directory path entries :
  filepath.Base path ∈ manifestNames →
  visited path (os.Dir true entries) = (path, None) :: visitedBelow path entries.
Proof. intros Hname. simpl. by rewrite (manifest_not_pruned path Hname). Qed.

(** C10 as stated fails for a directory that cannot be listed: the walk
    hands it to the closure together with the error of listing it, and
    the closure returns before the loop over the analyzers. An analyzer
    that returns a record without reading shows which paths it is invoked
    on: the directory that can be listed, and not the other one. *)
Lemma C10_unlistable_directory_counterexample :
  let path := lit "/proj/package.json" in
  let fn := walkFn [probeAnalyzer] in
  filepath.Base path ∈ manifestNames ∧
  ShouldAnalyze probeAnalyzer path = true ∧
  Walk.walk fn path (os.Dir true []) [] = ([NPM.component "probe" "0"], None) ∧
  Walk.walk fn path (os.Dir false []) [] = ([], None) ∧
  (Walk.walk fn path (os.Dir false []) []).1
  ≠ dispatch [probeAnalyzer] path (os.ReadFile (os.Dir false [])) [].
Proof.
  split_and!; [decide_notin|reflexivity|reflexivity|reflexivity|].
  vm_compute. discriminate.
Qed.

(** C10 (amended): the analyzers are consulted on directories as on
    files. A directory whose base name is a manifest name is not pruned
    and an analyzer matches its path. When it can be listed, the closure
    runs the loop over the analyzers on it: every analyzer that matches
    is invoked, with the error that reading a directory gives, and what
    an analyzer returns is appended; the registered analyzers all fail on
    that error, so the directory adds no record, and the walk goes on
    with its entries. When it cannot be listed, the closure returns nil
    before the loop: no analyzer is invoked and the directory adds no
    record. In both cases the walk and the aggregation go on: the
    aggregate of the parent directory holds the records found before the
    directory, those found below it and those found after it, and
    [AnalyzeDir] returns a nil error. *)
Theorem C10_directory_named_like_manifest env analyzers path entries st :
  filepath.Base path ∈ manifestNames →
  let fn := walkFn analyzers in
  let registered := NewProjectAnalyzer env in
  let file := os.ReadFile (os.Dir true entries) in
  (pruned path = false ∧
   ∃ a, a ∈ registered ∧ ShouldAnalyze a path = true) ∧
  (file = None ∧
   Walk.walk fn path (os.Dir true entries) st
   = walkEntries fn path entries
       (st ++ flat_map (λ a, output a path file) analyzers)) ∧
  ((∀ a, a ∈ registered → Analyze a path file = None) ∧
   flat_map (λ a, output a path file) registered = []) ∧
  Walk.walk fn path (os.Dir false entries) st = (st, None) ∧
  AnalyzeDir env path (os.Dir true entries)
  = Some (recordsOf registered (visitedBelow path entries)) ∧
  AnalyzeDir env path (os.Dir false entries) = Some [] ∧
  (∀ dir before name after,
     pruned dir = false → filepath.Join dir name = path →
     AnalyzeDir env dir (os.Dir true (before ++ (name, os.Dir true entries) :: after))
     = Some (recordsOf registered
               (visitedBelow dir before ++ visitedBelow path entries
                ++ visitedBelow dir after))
     ∧ AnalyzeDir env dir (os.Dir true (before ++ (name, os.Dir false entries) :: after))
       = Some (recordsOf registered
                 (visitedBelow dir before ++ visitedBelow dir after))).
Proof.
  intros Hname fn registered file.
  pose proof (manifest_not_pruned path Hname) as Hp.
  assert (Hnone : flat_map (λ a, output a path file) registered = []).
  { rewrite <- dispatch_outputs. apply dispatch_read_error. }
  split_and!.
  - done.
  - by apply manifest_matched.
  - done.
  - rewrite walk_Dir. unfold fn at 1, walkFn.
    cbn [os.Lstat os.ReadFile os.IsDir os.Name andb negb orb].
    unfold pruned in Hp. rewrite Hp.
    by rewrite dispatch_app, dispatch_outputs.
  - intros a Ha. by apply (Analyze_read_error env).
  - done.
  - by rewrite walk_Dir.
  - by apply AnalyzeDir_below.
  - by rewrite AnalyzeDir_visited.
  - intros dir before name after Hdir Hjoin.
    rewrite !AnalyzeDir_below by done.
    rewrite !visitedBelow_app, !visitedBelow_cons, Hjoin.
    split.
    + rewrite visited_manifest_directory by done. cbn [app].
      rewrite !recordsOf_app, recordsOf_directory. by rewrite recordsOf_app.
    + by cbn [visited negb orb app].
Qed.

Lemma C10_directory_named_like_manifest_witness :
  AnalyzeDir envForward "/proj"
    (os.Dir true
       [ (lit "package.json",
          os.Dir true [ (lit "requirements.txt",
                         os.File (Some (lit "flask==2.2.0"))) ]);
         (lit "requirements.txt", os.File (Some (lit "requests==2.28.0"))) ])
  = Some [PyPI.component "flask" "2.2.0"; PyPI.component "requests" "2.28.0"].
Proof.
  assert (Hname : filepath.Base (lit "/proj/package.json") ∈ manifestNames)
    by (vm_compute; apply list_elem_of_here).
  destruct (C10_directory_named_like_manifest envForward
              (NewProjectAnalyzer envForward) "/proj/package.json"
              [(lit "requirements.txt", os.File (Some (lit "flask==2.2.0")))]
              [] Hname)
    as (_ & _ & _ & _ & _ & _ & Hparent).
  refine (eq_trans
            (proj1 (Hparent "/proj" [] "package.json"
                      [(lit "requirements.txt",
                        os.File (Some (lit "requests==2.28.0")))] _ _)) _);
    reflexivity.
Defined.

Example AnalyzeDir_directory_manifest :
  AnalyzeDir envForward "/proj" dirManifestTree
  = Some [PyPI.component "flask" "2.2.0"].
Proof. vm_compute. reflexivity. Qed.

(** ** Strings *)

Lemma HasPrefix_nil (s : gostring) : strings.HasPrefix s [] = true.
Proof. by destruct s. Qed.

Lemma HasPrefix_app (p r : gostring) : strings.HasPrefix (p ++ r) p = true.
Proof.
  induction p as [|c p IH]; [apply HasPrefix_nil|].
  simpl. by rewrite Ascii.eqb_refl, IH.
Qed.

Lemma HasPrefix_true (s p : gostring) :
  strings.HasPrefix s p = true ↔ ∃ r, s = p ++ r.
Proof.
  split.
  - revert s. induction p as [|c p IH]; intros s Hs; [by exists s|].
    destruct s as [|b s]; [done|]. simpl in Hs.
    apply andb_true_iff in Hs as [Hb Hs]. apply Ascii.eqb_eq in Hb as ->.
    destruct (IH s Hs) as [r ->]. by exists r.
  - intros [r ->]. apply HasPrefix_app.
Qed.

Lemma HasPrefix_app_l (s p r : gostring) :
  strings.HasPrefix s p = true → strings.HasPrefix (s ++ r) p = true.
Proof.
  rewrite !HasPrefix_true. intros [t ->]. exists (t ++ r). by rewrite app_assoc.
Qed.

Lemma Index_unfold (s sub : gostring) :
  strings.Index s sub
  = if strings.HasPrefix s sub then Some 0
    else match s with
         | [] => None
         | _ :: s' => S <$> strings.Index s' sub
         end.
Proof. by destruct s. Qed.

(** [Index] returns an occurrence, and the first one. *)
Lemma Index_Some (s sub : gostring) (m : nat) :
  strings.Index s sub = Some m →
  s = take m s ++ sub ++ drop (m + length sub) s
  ∧ ∀ k, k < m → strings.HasPrefix (drop k s) sub = false.
Proof.
  revert m. induction s as [|c s IH]; intros m; rewrite Index_unfold;
    destruct (strings.HasPrefix _ sub) eqn:Hp; try done.
  - intros [= <-]. apply HasPrefix_true in Hp as [r Hr]. split; [|lia].
    by destruct sub.
  - intros [= <-]. split; [|lia].
    apply HasPrefix_true in Hp as [r Hr]. rewrite Hr. simpl.
    by rewrite drop_app_length.
  - destruct (strings.Index s sub) as [m'|] eqn:Hm; [|done]. simpl.
    intros [= <-]. destruct (IH m' eq_refl) as [Heq Hfirst]. split.
    + simpl. by rewrite <- Heq.
    + intros [|k] Hk; [done|]. simpl. apply Hfirst. lia.
Qed.

Lemma Index_None (s sub : gostring) :
  strings.Index s sub = None → ∀ a b, s ≠ a ++ sub ++ b.
Proof.
  induction s as [|c s IH]; rewrite Index_unfold;
    destruct (strings.HasPrefix _ sub) eqn:Hp; try done.
  - intros _ a b Heq. destruct a, sub; done.
  - destruct (strings.Index s sub) eqn:Hm; [done|]. intros _ a b Heq.
    destruct a as [|c' a].
    + simpl in Heq. rewrite Heq, HasPrefix_app in Hp. done.
    + injection Heq as -> Heq. by apply (IH eq_refl a b).
Qed.

Lemma Contains_true (s sub : gostring) :
  strings.Contains s sub = true ↔ ∃ a b, s = a ++ sub ++ b.
Proof.
  unfold strings.Contains. rewrite bool_decide_eq_true. split.
  - intros [m Hm]. apply Index_Some in Hm as [Heq _]. eauto.
  - intros (a & b & Heq). destruct (strings.Index s sub) eqn:Hm; [done|].
    by destruct (Index_None _ _ Hm a b).
Qed.

Lemma Contains_false (s sub : gostring) :
  strings.Contains s sub = false ↔ strings.Index s sub = None.
Proof.
  unfold strings.Contains. rewrite bool_decide_eq_false.
  destruct (strings.Index s sub); split; try done.
  intros H. by destruct H.
Qed.

(** The first occurrence of a byte. *)
Lemma Index_byte (a b : gostring) (c : ascii) :
  c ∉ a → strings.Index (a ++ c :: b) [c] = Some (length a).
Proof.
  intros Ha. induction a as [|x a IH]; rewrite Index_unfold.
  - pose proof (HasPrefix_app [c] b) as Hp. simpl app in *. by rewrite Hp.
  - rewrite <- app_comm_cons. destruct (strings.HasPrefix _ [c]) eqn:Hp.
    + apply HasPrefix_true in Hp as [r [= -> _]]. set_solver.
    + rewrite IH by set_solver. done.
Qed.

Lemma Contains_byte (s : gostring) (c : ascii) :
  strings.Contains s [c] = true ↔ c ∈ s.
Proof.
  rewrite Contains_true. split.
  - intros (a & b & ->). set_solver.
  - intros (a & b & ->)%list_elem_of_split. by exists a, b.
Qed.

(** ** White space *)

Lemma spaceRunes_length (r : gostring) : r ∈ strings.spaceRunes → 0 < length r.
Proof.
  unfold strings.spaceRunes. rewrite !elem_of_cons, elem_of_nil.
  intros H; repeat (destruct H as [->|H]; [simpl; lia|]); done.
Qed.

Lemma spaceWidth_zero (s : gostring) :
  strings.spaceWidth s = 0
  ↔ ∀ r, r ∈ strings.spaceRunes → strings.HasPrefix s r = false.
Proof.
  unfold strings.spaceWidth.
  destruct (find (strings.HasPrefix s) strings.spaceRunes) as [r|] eqn:Hf.
  - apply find_some in Hf as [Hr%list_elem_of_In Hp]. split.
    + pose proof (spaceRunes_length r Hr). lia.
    + intros H. rewrite (H r Hr) in Hp. done.
  - split; [|done]. intros _ r Hr%list_elem_of_In.
    by apply (find_none _ _ Hf).
Qed.

Lemma spaceWidth_rune (s : gostring) (w : nat) :
  strings.spaceWidth s = S w →
  ∃ r b, s = r ++ b ∧ r ∈ strings.spaceRunes ∧ length r = S w.
Proof.
  unfold strings.spaceWidth.
  destruct (find (strings.HasPrefix s) strings.spaceRunes) as [r|] eqn:Hf; [|done].
  apply find_some in Hf as [Hr%list_elem_of_In Hp].
  apply HasPrefix_true in Hp as [b ->]. intros Hw. by exists r, b.
Qed.

Lemma spaceWidth_app (a b : gostring) :
  strings.spaceWidth (a ++ b) = 0 → strings.spaceWidth a = 0.
Proof.
  rewrite !spaceWidth_zero. intros H r Hr.
  destruct (strings.HasPrefix a r) eqn:Hp; [|done].
  by rewrite <- (H r Hr), (HasPrefix_app_l a r b Hp).
Qed.

Lemma spaceWidth_of_rune (r : gostring) :
  r ∈ strings.spaceRunes → strings.spaceWidth r ≠ 0.
Proof.
  intros Hr H0. rewrite spaceWidth_zero in H0.
  specialize (H0 r Hr). rewrite <- (app_nil_r r) in H0 at 1.
  by rewrite HasPrefix_app in H0.
Qed.

Lemma HasSuffix_true (s r : gostring) :
  strings.HasSuffix s r = true ↔ ∃ a, s = a ++ r.
Proof.
  unfold strings.HasSuffix. rewrite HasPrefix_true. split.
  - intros [x Hx]. exists (rev x).
    by rewrite <- (rev_involutive s), Hx, rev_app_distr, rev_involutive.
  - intros [a ->]. exists (rev a). by rewrite rev_app_distr.
Qed.

Lemma lastSpaceWidth_zero (s : gostring) :
  strings.lastSpaceWidth s = 0
  ↔ ∀ r, r ∈ strings.spaceRunes → strings.HasSuffix s r = false.
Proof.
  unfold strings.lastSpaceWidth.
  destruct (find (strings.HasSuffix s) strings.spaceRunes) as [r|] eqn:Hf.
  - apply find_some in Hf as [Hr%list_elem_of_In Hp]. split.
    + pose proof (spaceRunes_length r Hr). lia.
    + intros H. rewrite (H r Hr) in Hp. done.
  - split; [|done]. intros _ r Hr%list_elem_of_In.
    by apply (find_none _ _ Hf).
Qed.

Lemma lastSpaceWidth_rune (s : gostring) (w : nat) :
  strings.lastSpaceWidth s = S w →
  ∃ a r, s = a ++ r ∧ r ∈ strings.spaceRunes ∧ length r = S w.
Proof.
  unfold strings.lastSpaceWidth.
  destruct (find (strings.HasSuffix s) strings.spaceRunes) as [r|] eqn:Hf; [|done].
  apply find_some in Hf as [Hr%list_elem_of_In Hp].
  apply HasSuffix_true in Hp as [a ->]. intros Hw. by exists a, r.
Qed.

(** Trimming keeps a contiguous part of the string. *)
Lemma trimLeftSpace_suffix (fuel : nat) (s : gostring) :
  ∃ a, s = a ++ strings.trimLeftSpace fuel s.
Proof.
  revert s. induction fuel as [|fuel IH]; intros s; simpl; [by exists []|].
  destruct (strings.spaceWidth s) as [|w]; [by exists []|].
  destruct (IH (drop (S w) s)) as [a Ha].
  exists (take (S w) s ++ a). by rewrite <- app_assoc, <- Ha, take_drop.
Qed.

Lemma trimRightSpace_prefix (fuel : nat) (s : gostring) :
  ∃ b, s = strings.trimRightSpace fuel s ++ b.
Proof.
  revert s. induction fuel as [|fuel IH]; intros s; simpl;
    [exists []; by rewrite app_nil_r|].
  destruct (strings.lastSpaceWidth s) as [|w]; [exists []; by rewrite app_nil_r|].
  destruct (IH (take (length s - S w) s)) as [b Hb].
  exists (b ++ drop (length s - S w) s). by rewrite app_assoc, <- Hb, take_drop.
Qed.

Lemma TrimSpace_infix (s : gostring) : ∃ a b, s = a ++ strings.TrimSpace s ++ b.
Proof.
  unfold strings.TrimSpace.
  destruct (trimLeftSpace_suffix (length s) s) as [a Ha].
  destruct (trimRightSpace_prefix
              (length (strings.trimLeftSpace (length s) s))
              (strings.trimLeftSpace (length s) s)) as [b Hb].
  exists a, b. by rewrite <- Hb.
Qed.

Lemma Contains_TrimSpace (s sub : gostring) :
  strings.Contains (strings.TrimSpace s) sub = true →
  strings.Contains s sub = true.
Proof.
  rewrite !Contains_true. intros (a & b & Heq).
  destruct (TrimSpace_infix s) as (a' & b' & Hs).
  exists (a' ++ a), (b ++ b'). rewrite Hs at 1. rewrite Heq.
  by rewrite <- !app_assoc.
Qed.




Lemma fieldsFrom_noSpace (fuel : nat) (cur s f : gostring) :
  (∀ k, k < length cur → strings.spaceWidth (drop k (cur ++ s)) = 0) →
  f ∈ strings.fieldsFrom fuel cur s → f ≠ [] ∧ noSpace f.
Proof.
  assert (Hflush : ∀ cur s,
    (∀ k, k < length cur → strings.spaceWidth (drop k (cur ++ s)) = 0) →
    f ∈ strings.flushField cur → f ≠ [] ∧ noSpace f).
  { clear. intros cur s Hcur Hf. destruct cur as [|c cur]; [by apply elem_of_nil in Hf|].
    apply list_elem_of_singleton in Hf as ->. split; [done|]. intros k.
    destruct (decide (k < length (c :: cur))) as [Hk|Hk].
    - apply (spaceWidth_app _ s). rewrite <- drop_app_le by lia. by apply Hcur.
    - by rewrite drop_ge by lia. }
  revert cur s. induction fuel as [|fuel IH]; intros cur s Hcur; simpl.
  { intros Hf. destruct s; exact (Hflush _ _ Hcur Hf). }
  destruct s as [|c s]; [exact (Hflush _ _ Hcur)|].
  destruct (strings.spaceWidth (c :: s)) as [|w] eqn:Hw.
  - apply IH. intros k Hk. rewrite <- app_assoc. simpl.
    rewrite length_app in Hk. simpl in Hk.
    destruct (decide (k < length cur)) as [Hlt|Hge]; [by apply Hcur|].
    replace k with (length cur + 0) by lia. by rewrite drop_app_add.
  - rewrite elem_of_app. intros [Hf|Hf]; [by apply (Hflush cur (c :: s))|].
    apply (IH [] (drop (S w) (c :: s))); [|done]. simpl. lia.
Qed.

Lemma Fields_noSpace (s f : gostring) :
  f ∈ strings.Fields s → f ≠ [] ∧ noSpace f.
Proof. apply fieldsFrom_noSpace. simpl. lia. Qed.

Lemma TrimSpace_noSpace (f : gostring) : noSpace f → strings.TrimSpace f = f.
Proof.
  intros Hf. unfold strings.TrimSpace.
  assert (Hleft : ∀ fuel, strings.trimLeftSpace fuel f = f).
  { intros [|fuel]; [done|]. pose proof (Hf 0) as H0.
    change (drop 0 f) with f in H0. cbn [strings.trimLeftSpace]. by rewrite H0. }
  rewrite Hleft.
  assert (Hlast : strings.lastSpaceWidth f = 0).
  { apply lastSpaceWidth_zero. intros r Hr.
    destruct (strings.HasSuffix f r) eqn:Hs; [|done].
    apply HasSuffix_true in Hs as [a ->].
    destruct (spaceWidth_of_rune r Hr).
    rewrite <- (Hf (length a)). by rewrite drop_app_length. }
  destruct (length f) as [|fuel]; [done|].
  cbn [strings.trimRightSpace]. by rewrite Hlast.
Qed.

(** A field has no white space to trim. *)
Lemma TrimSpace_field (s f : gostring) :
  f ∈ strings.Fields s → strings.TrimSpace f = f.
Proof. intros Hf. apply TrimSpace_noSpace. by apply (Fields_noSpace s). Qed.

(** ** Splitting *)

Lemma Index_length (s sub : gostring) (m : nat) :
  strings.Index s sub = Some m → m + length sub ≤ length s.
Proof.
  revert m. induction s as [|c s IH]; intros m; rewrite Index_unfold;
    destruct (strings.HasPrefix _ sub) eqn:Hp; try done.
  - intros [= <-]. apply HasPrefix_true in Hp as [r Hr].
    apply (f_equal length) in Hr. rewrite length_app in Hr. lia.
  - intros [= <-]. apply HasPrefix_true in Hp as [r Hr].
    apply (f_equal length) in Hr. rewrite length_app in Hr. lia.
  - destruct (strings.Index s sub) as [m'|] eqn:Hm; [|done]. simpl.
    intros [= <-]. specialize (IH m' eq_refl). simpl. lia.
Qed.


(** [Split] when the separator does not occur, and its first two parts
    when it does. *)
Lemma Split_None (s sep : gostring) :
  strings.Index s sep = None → strings.Split s sep = [s].
Proof.
  intros Hm. unfold strings.Split. destruct (length s); simpl; [done|].
  by rewrite Hm.
Qed.



(** ** requirements.txt *)

Lemma PyPI_analyzeLine_app comps line :
  PyPI.analyzeLine comps line = comps ++ PyPI.analyzeLine [] line.
Proof.
  unfold PyPI.analyzeLine. repeat case_match; by rewrite ?app_nil_r.
Qed.

Lemma foldl_flat_map {A B} (f : list B → A → list B) (l : list A) (acc : list B) :
  (∀ acc x, f acc x = acc ++ f [] x) →
  foldl f acc l = acc ++ flat_map (f []) l.
Proof.
  intros Hf. revert acc. induction l as [|x l IH]; intros acc; simpl.
  - by rewrite app_nil_r.
  - by rewrite IH, Hf, app_assoc.
Qed.






(** ** Cargo.toml *)









(** ** pom.xml *)

(** A non-empty extraction is the text between the first opening tag and
    the first closing tag after it. *)
Lemma extractTag_between (line tag v : gostring) :
  Maven.extractTag line tag = v → v ≠ [] →
  ∃ pre post, line = pre ++ ("<" ++ tag ++ ">") ++ v ++ ("</" ++ tag ++ ">") ++ post.
Proof.
  unfold Maven.extractTag, slice.
  destruct (strings.Index line _) as [start|] eqn:Hstart; [|by intros <-].
  destruct (strings.Index (drop _ line) _) as [end_|] eqn:Hend; [|by intros <-].
  intros <- _.
  apply Index_Some in Hstart as [Hline _]. apply Index_Some in Hend as [Hrest _].
  eexists _, _. rewrite Hline at 1. do 2 f_equal.
  replace (start + length (lit "<" ++ tag ++ lit ">") + end_
           - (start + length (lit "<" ++ tag ++ lit ">"))) with end_ by lia.
  exact Hrest.
Qed.

Lemma extractTag_absent (line tag : gostring) :
  strings.Contains line ("<" ++ tag ++ ">") = false → Maven.extractTag line tag = [].
Proof.
  intros Hc%Contains_false. unfold Maven.extractTag. by rewrite Hc.
Qed.

(** What one line does to the state of [parsePomXML]. *)
Lemma parseLine_cases inDependencies comps line :
  let l := strings.TrimSpace line in
  Maven.parseLine (inDependencies, comps) line
  = if strings.Contains l "<dependencies>" then (true, comps)
    else if strings.Contains l "</dependencies>" then (false, comps)
    else if inDependencies && strings.Contains l "<artifactId>"
            && strings.Contains l "</artifactId>"
            && negb (bool_decide (Maven.extractTag l "artifactId" = []))
            && negb (bool_decide (Maven.extractTag l "version" = []))
         then (inDependencies,
               comps ++ [Maven.component (Maven.extractTag l "artifactId")
                                         (Maven.extractTag l "version")])
         else (inDependencies, comps).
Proof.
  intros l. unfold Maven.parseLine. fold l.
  destruct (strings.Contains l "<dependencies>"); [done|].
  destruct (strings.Contains l "</dependencies>"); [done|].
  destruct inDependencies; [|done]. cbn [andb].
  destruct (strings.Contains l "<artifactId>"); [|done].
  destruct (strings.Contains l "</artifactId>"); [|done]. cbn [andb].
  change (lit "") with (@nil ascii).
  by destruct (negb _ && negb _).
Qed.

Lemma substring_TrimSpace (line a v b : gostring) :
  (∃ pre post, strings.TrimSpace line = pre ++ a ++ v ++ b ++ post) →
  ∃ pre post, line = pre ++ a ++ v ++ b ++ post.
Proof.
  intros (pre & post & Heq). destruct (TrimSpace_infix line) as (x & y & Hline).
  exists (x ++ pre), (post ++ y). rewrite Hline at 1. rewrite Heq.
  by rewrite <- !app_assoc.
Qed.

Lemma parseLine_emits comps line inDependencies' comps' :
  Maven.parseLine (true, comps) line = (inDependencies', comps') →
  comps' = comps
  ∨ ∃ artifactId version,
      comps' = comps ++ [Maven.component artifactId version]
      ∧ artifactId ≠ [] ∧ version ≠ []
      ∧ strings.Contains line "<artifactId>" = true
      ∧ strings.Contains line "</artifactId>" = true
      ∧ (∃ pre post,
           line = pre ++ "<artifactId>" ++ artifactId ++ "</artifactId>" ++ post)
      ∧ (∃ pre post, line = pre ++ "<version>" ++ version ++ "</version>" ++ post).
Proof.
  rewrite parseLine_cases. cbn zeta. set (l := strings.TrimSpace line).
  destruct (strings.Contains l "<dependencies>"); [intros [= _ <-]; by left|].
  destruct (strings.Contains l "</dependencies>"); [intros [= _ <-]; by left|].
  cbn [andb].
  destruct (strings.Contains l "<artifactId>") eqn:Hopen; [|intros [= _ <-]; by left].
  destruct (strings.Contains l "</artifactId>") eqn:Hclose; [|intros [= _ <-]; by left].
  cbn [andb].
  destruct (bool_decide _) eqn:Ha; [intros [= _ <-]; by left|].
  destruct (bool_decide (Maven.extractTag l "version" = [])) eqn:Hv;
    [intros [= _ <-]; by left|].
  cbn [negb andb]. intros [= _ <-]. right.
  apply bool_decide_eq_false in Ha, Hv.
  exists (Maven.extractTag l "artifactId"), (Maven.extractTag l "version").
  split_and!; try done.
  - by apply Contains_TrimSpace.
  - by apply Contains_TrimSpace.
  - apply substring_TrimSpace. by apply (extractTag_between l "artifactId").
  - apply substring_TrimSpace. by apply (extractTag_between l "version").
Qed.

Lemma parseLine_outside comps line :
  (Maven.parseLine (false, comps) line).2 = comps.
Proof. rewrite parseLine_cases. cbn zeta. by repeat case_match. Qed.

(** C6: a line that contains [<dependencies>] sets the state to true, any
    other line that contains [</dependencies>] sets it to false, and no
    other line changes it. While the state is true, a line yields a record
    only if it contains [<artifactId>] and [</artifactId>] and both the
    artifactId and the text between [<version>] and [</version>] taken
    from this same line are non-empty; then both tag pairs lie on the
    line. While the state is false no line yields a record. A file in
    which no line holds both [<artifactId>] and [<version>] yields no
    record. *)
Theorem C6_pom_lines :
  (∀ inDependencies comps line,
     let l := strings.TrimSpace line in
     (strings.Contains l "<dependencies>" = true →
      Maven.parseLine (inDependencies, comps) line = (true, comps)) ∧
     (strings.Contains l "<dependencies>" = false →
      strings.Contains l "</dependencies>" = true →
      Maven.parseLine (inDependencies, comps) line = (false, comps)) ∧
     (strings.Contains l "<dependencies>" = false →
      strings.Contains l "</dependencies>" = false →
      (Maven.parseLine (inDependencies, comps) line).1 = inDependencies) ∧
     (inDependencies = false →
      (Maven.parseLine (inDependencies, comps) line).2 = comps)) ∧
  (∀ comps line inDependencies' comps',
     Maven.parseLine (true, comps) line = (inDependencies', comps') →
     comps' = comps
     ∨ ∃ artifactId version,
         comps' = comps ++ [Maven.component artifactId version]
         ∧ artifactId ≠ [] ∧ version ≠ []
         ∧ strings.Contains line "<artifactId>" = true
         ∧ strings.Contains line "</artifactId>" = true
         ∧ (∃ pre post,
              line = pre ++ "<artifactId>" ++ artifactId ++ "</artifactId>" ++ post)
         ∧ (∃ pre post,
              line = pre ++ "<version>" ++ version ++ "</version>" ++ post)) ∧
  (∀ xmlContent,
     (∀ line, line ∈ splitLines xmlContent →
        ¬ (strings.Contains line "<artifactId>" = true
           ∧ strings.Contains line "<version>" = true)) →
     Maven.parsePomXML xmlContent = []).
Proof.
  split_and!.
  - intros inDependencies comps line l. split_and!.
    + intros H. rewrite parseLine_cases. cbn zeta. fold l. by rewrite H.
    + intros H1 H2. rewrite parseLine_cases. cbn zeta. fold l. by rewrite H1, H2.
    + intros H1 H2. rewrite parseLine_cases. cbn zeta. fold l. rewrite H1, H2.
      by destruct (_ && _).
    + intros ->. apply parseLine_outside.
  - apply parseLine_emits.
  - intros xmlContent Hlines. unfold Maven.parsePomXML.
    assert (Hinv : ∀ lines st,
      (∀ line, line ∈ lines →
         ¬ (strings.Contains line "<artifactId>" = true
            ∧ strings.Contains line "<version>" = true)) →
      st.2 = [] → (foldl Maven.parseLine st lines).2 = []).
    { induction lines as [|line lines IH]; intros [b comps] Hall Hst; [done|].
      simpl in Hst. subst comps. cbn [foldl]. apply IH.
      { intros line' Hin. apply Hall. by apply list_elem_of_further. }
      destruct b; [|apply parseLine_outside].
      destruct (Maven.parseLine (true, []) line) as [b' comps'] eqn:Hstep.
      apply parseLine_emits in Hstep
        as [->|(a & v & _ & _ & _ & Hopen & _ & _ & (pre & post & Hv))]; [done|].
      destruct (Hall line); [apply list_elem_of_here|]. split; [done|].
      apply Contains_true. exists pre, (v ++ lit "</version>" ++ post).
      by rewrite Hv. }
    by apply Hinv.
Qed.

Lemma C6_pom_lines_witness :
  Maven.parseLine (false, []) "  <dependencies>" = (true, []) ∧
  Maven.parseLine (true, []) "  </dependencies>" = (false, []) ∧
  Maven.parsePomXML testPomXML = [].
Proof.
  destruct C6_pom_lines as (Hstate & _ & Hfile). split_and!.
  - apply (proj1 (Hstate false [] "  <dependencies>")). reflexivity.
  - apply (proj1 (proj2 (Hstate true [] "  </dependencies>"))); reflexivity.
  - apply Hfile. intros line. vm_compute.
    intros H; repeat (apply elem_of_cons in H as [->|H];
                      [intros [H1 H2]; discriminate|]).
    by apply elem_of_nil in H.
Defined.

Example Maven_same_line :
  Maven.parsePomXML
    ("<dependencies>" ++ [newline] ++
     "<artifactId>guava</artifactId><version>31.1-jre</version>" ++ [newline] ++
     "</dependencies>")
  = [Maven.component "guava" "31.1-jre"].
Proof. vm_compute. reflexivity. Qed.

(** ** go.mod *)






(** ** The bounds of the loops

    The functions that model a Go loop over a string take the length of
    the string as the bound on the number of iterations. The loops end
    before the bound is reached: a larger bound gives the same result. *)

Lemma spaceWidth_le (s : gostring) : strings.spaceWidth s ≤ length s.
Proof.
  destruct (strings.spaceWidth s) as [|w] eqn:Hw; [lia|].
  apply spaceWidth_rune in Hw as (r & b & -> & _ & <-).
  rewrite length_app. lia.
Qed.

Lemma lastSpaceWidth_le (s : gostring) : strings.lastSpaceWidth s ≤ length s.
Proof.
  destruct (strings.lastSpaceWidth s) as [|w] eqn:Hw; [lia|].
  apply lastSpaceWidth_rune in Hw as (a & r & -> & _ & <-).
  rewrite length_app. lia.
Qed.

Lemma trimLeftSpace_bound (fuel1 fuel2 : nat) (s : gostring) :
  length s ≤ fuel1 → length s ≤ fuel2 →
  strings.trimLeftSpace fuel1 s = strings.trimLeftSpace fuel2 s.
Proof.
  revert fuel2 s. induction fuel1 as [|fuel1 IH]; intros fuel2 s H1 H2.
  - destruct s; [|simpl in H1; lia]. by destruct fuel2.
  - destruct fuel2 as [|fuel2].
    { destruct s; [done|simpl in H2; lia]. }
    cbn [strings.trimLeftSpace]. pose proof (spaceWidth_le s).
    destruct (strings.spaceWidth s) as [|w]; [done|].
    apply IH; rewrite length_drop; lia.
Qed.

Lemma trimRightSpace_bound (fuel1 fuel2 : nat) (s : gostring) :
  length s ≤ fuel1 → length s ≤ fuel2 →
  strings.trimRightSpace fuel1 s = strings.trimRightSpace fuel2 s.
Proof.
  revert fuel2 s. induction fuel1 as [|fuel1 IH]; intros fuel2 s H1 H2.
  - destruct s; [|simpl in H1; lia]. by destruct fuel2.
  - destruct fuel2 as [|fuel2].
    { destruct s; [done|simpl in H2; lia]. }
    cbn [strings.trimRightSpace]. pose proof (lastSpaceWidth_le s).
    destruct (strings.lastSpaceWidth s) as [|w]; [done|].
    apply IH; rewrite length_take; lia.
Qed.

(** What [TrimSpace] returns neither starts nor ends with white space. *)
Lemma TrimSpace_trimmed (s : gostring) :
  strings.spaceWidth (strings.TrimSpace s) = 0
  ∧ strings.lastSpaceWidth (strings.TrimSpace s) = 0.
Proof.
  assert (Hleft : ∀ fuel s, length s ≤ fuel →
            strings.spaceWidth (strings.trimLeftSpace fuel s) = 0).
  { induction fuel as [|fuel IH]; intros t Ht.
    - by destruct t; [|simpl in Ht; lia].
    - cbn [strings.trimLeftSpace]. pose proof (spaceWidth_le t).
      destruct (strings.spaceWidth t) as [|w] eqn:Hw; [done|].
      apply IH. rewrite length_drop. lia. }
  assert (Hright : ∀ fuel s, length s ≤ fuel →
            strings.lastSpaceWidth (strings.trimRightSpace fuel s) = 0).
  { induction fuel as [|fuel IH]; intros t Ht.
    - by destruct t; [|simpl in Ht; lia].
    - cbn [strings.trimRightSpace]. pose proof (lastSpaceWidth_le t).
      destruct (strings.lastSpaceWidth t) as [|w] eqn:Hw; [done|].
      apply IH. rewrite length_take. lia. }
  assert (Hkeep : ∀ fuel s, strings.spaceWidth s = 0 →
            strings.spaceWidth (strings.trimRightSpace fuel s) = 0).
  { induction fuel as [|fuel IH]; intros t Ht; [done|].
    cbn [strings.trimRightSpace].
    destruct (strings.lastSpaceWidth t) as [|w]; [done|].
    apply IH. apply (spaceWidth_app _ (drop (length t - S w) t)).
    by rewrite take_drop. }
  unfold strings.TrimSpace. split.
  - apply Hkeep. by apply Hleft.
  - by apply Hright.
Qed.

Lemma genSplit_bound (cuts1 cuts2 : nat) (s sep : gostring) :
  sep ≠ [] → length s ≤ cuts1 → length s ≤ cuts2 →
  strings.genSplit cuts1 s sep = strings.genSplit cuts2 s sep.
Proof.
  intros Hsep. assert (0 < length sep) by (destruct sep; [done|simpl; lia]).
  assert (Hnil : strings.Index [] sep = None) by (by destruct sep).
  revert cuts2 s. induction cuts1 as [|cuts1 IH]; intros cuts2 s H1 H2.
  - destruct s; [|simpl in H1; lia].
    destruct cuts2; cbn [strings.genSplit]; by rewrite ?Hnil.
  - destruct cuts2 as [|cuts2].
    { destruct s; [|simpl in H2; lia]. cbn [strings.genSplit]. by rewrite Hnil. }
    cbn [strings.genSplit].
    destruct (strings.Index s sep) as [m|] eqn:Hm; [|done].
    apply Index_length in Hm. f_equal. apply IH; rewrite length_drop; lia.
Qed.

Lemma fieldsFrom_bound (fuel1 fuel2 : nat) (cur s : gostring) :
  length s ≤ fuel1 → length s ≤ fuel2 →
  strings.fieldsFrom fuel1 cur s = strings.fieldsFrom fuel2 cur s.
Proof.
  revert fuel2 cur s. induction fuel1 as [|fuel1 IH]; intros fuel2 cur s H1 H2.
  - destruct s; [|simpl in H1; lia]. by destruct fuel2.
  - destruct fuel2 as [|fuel2].
    { destruct s; [done|simpl in H2; lia]. }
    destruct s as [|c s]; [done|]. cbn [strings.fieldsFrom].
    pose proof (spaceWidth_le (c :: s)). simpl in H1, H2.
    destruct (strings.spaceWidth (c :: s)) as [|w]; [apply IH; lia|].
    f_equal. apply IH; rewrite length_drop; simpl; lia.
Qed.

(** * Further properties of the code *)

(** ** The project-type detector *)

Lemma signatureType_ecosystem name projectType :
  signatureType name = Some projectType →
  projectType ∈ ecosystems ∧ projectType ≠ lit "unknown".
Proof.
  unfold signatureType, ecosystems.
  repeat case_match; intros [= <-]; (split; [set_solver|done]).
Qed.

Lemma detectLoop_unknown names :
  detectLoop names = lit "unknown" ↔ Forall (λ n, signatureType n = None) names.
Proof.
  induction names as [|n names IH]; simpl.
  - split; [constructor|done].
  - destruct (signatureType n) as [t|] eqn:Ht.
    + split.
      * intros ->. by destruct (signatureType_ecosystem _ _ Ht).
      * intros H. apply Forall_cons in H as [H _]. by rewrite Ht in H.
    + rewrite IH. split; [by constructor|]. by intros [_ H]%Forall_cons.
Qed.

(** The first name of the listing that is a signature decides. *)
Lemma detectLoop_first before sig after projectType :
  Forall (λ n, signatureType n = None) before →
  signatureType sig = Some projectType →
  detectLoop (before ++ sig :: after) = projectType.
Proof.
  intros Hbefore Hsig. induction Hbefore as [|n before Hn _ IH]; simpl.
  - by rewrite Hsig.
  - by rewrite Hn.
Qed.

(** X1: [DetectProjectType] returns one of the five ecosystem names or
    "unknown", and it returns "unknown" exactly when the directory cannot
    be read or none of its entries is named like a signature file. *)
Theorem X1_detect_unknown files :
  (DetectProjectType files ∈ ecosystems ∨ DetectProjectType files = lit "unknown") ∧
  (DetectProjectType files = lit "unknown"
   ↔ files = None
     ∨ ∃ names, files = Some names ∧ Forall (λ n, signatureType n = None) names).
Proof.
  destruct files as [names|]; simpl.
  - split.
    + induction names as [|n names IH]; simpl; [by right|].
      destruct (signatureType n) as [t|] eqn:Ht; [|done].
      left. by destruct (signatureType_ecosystem _ _ Ht).
    + rewrite detectLoop_unknown. split.
      * intros H. right. by exists names.
      * intros [|(names' & [= <-] & H)]; done.
  - split; [by right|]. split; [by left|done].
Qed.

Lemma signatureType_names name :
  is_Some (signatureType name) ↔ name ∈ signatureNames.
Proof.
  unfold signatureType, signatureNames. split.
  - intros [t Ht]. repeat case_match; try done;
      repeat match goal with
             | H : bool_decide _ = true |- _ => apply bool_decide_eq_true in H; subst
             | H : _ || _ = true |- _ => apply orb_true_iff in H as [H|H]
             end; set_solver.
  - rewrite !elem_of_cons, elem_of_nil.
    intros [->|[->|[->|[->|[->|[->|[->|[]]]]]]]]; by eexists.
Qed.

Lemma stringLess_asym a b : stringLess a b = true → stringLess b a = false.
Proof.
  revert b. induction a as [|x a IH]; intros [|y b]; simpl; try done.
  rewrite orb_true_iff, orb_false_iff, andb_true_iff, andb_false_iff.
  intros [Hlt|[Heq Hless]].
  - apply N.ltb_lt in Hlt. split; [apply N.ltb_ge; lia|]. left.
    destruct (Ascii.eqb_spec y x) as [->|]; [lia|done].
  - apply Ascii.eqb_eq in Heq as ->. split; [apply N.ltb_irrefl|].
    right. by apply IH.
Qed.

Lemma signatureNames_sorted :
  StronglySorted (λ a b, stringLess a b = true) signatureNames.
Proof. repeat constructor. Qed.

Lemma StronglySorted_before {A} (R : A → A → Prop) (before after : list A) (x : A) :
  StronglySorted R (before ++ x :: after) →
  Forall (λ y, R y x) before ∧ Forall (R x) after.
Proof.
  induction before as [|y before IH]; simpl; intros H.
  - apply StronglySorted_inv in H as [_ H]. by split.
  - apply StronglySorted_inv in H as [Hs Hy]. destruct (IH Hs) as [Hb Ha].
    split; [|done]. constructor; [|done].
    rewrite Forall_forall in Hy. apply Hy.
    apply elem_of_app. right. apply list_elem_of_here.
Qed.

(** X2: [os.ReadDir] lists the names in the order of Go's [<], so when
    several signature files are present the detected type is that of the
    first one in the order [Cargo.toml], [go.mod], [package.json],
    [pom.xml], [pyproject.toml], [requirements.txt], [setup.py], whatever
    the order of the cases of the [switch]. *)
Theorem X2_detect_precedence names earlier sig later projectType :
  StronglySorted (λ a b, stringLess a b = true) names →
  signatureNames = earlier ++ sig :: later →
  Forall (λ n, n ∉ names) earlier →
  sig ∈ names →
  signatureType sig = Some projectType →
  DetectProjectType (Some names) = projectType.
Proof.
  intros Hsorted Hprec Hearlier Hin Hsig. simpl.
  apply list_elem_of_split in Hin as (before & after & ->).
  apply detectLoop_first; [|done].
  destruct (StronglySorted_before _ _ _ _ Hsorted) as [Hbefore _].
  pose proof signatureNames_sorted as Hnames. rewrite Hprec in Hnames.
  destruct (StronglySorted_before _ _ _ _ Hnames) as [_ Hlater].
  rewrite Forall_forall in Hbefore, Hearlier, Hlater.
  apply Forall_forall. intros n Hn.
  destruct (signatureType n) as [t|] eqn:Ht; [exfalso|done].
  assert (Hsn : n ∈ signatureNames) by (apply signatureType_names; by eexists).
  rewrite Hprec in Hsn. pose proof (Hbefore n Hn) as Hless.
  apply elem_of_app in Hsn as [Hsn|Hsn].
  - apply (Hearlier n Hsn). set_solver.
  - apply elem_of_cons in Hsn as [->|Hsn].
    + by rewrite (stringLess_asym _ _ Hless) in Hless.
    + by rewrite (stringLess_asym _ _ (Hlater n Hsn)) in Hless.
Qed.

Lemma X2_detect_precedence_witness :
  DetectProjectType
    (Some [lit "README.md"; lit "go.mod"; lit "package.json"; lit "src"])
  = lit "go".
Proof.
  apply (X2_detect_precedence _ [lit "Cargo.toml"] (lit "go.mod")
           [lit "package.json"; lit "pom.xml"; lit "pyproject.toml";
            lit "requirements.txt"; lit "setup.py"]).
  - repeat constructor.
  - reflexivity.
  - constructor; [decide_notin|constructor].
  - apply list_elem_of_further, list_elem_of_here.
  - reflexivity.
Defined.

(** ** The analyzers and the detector *)

Lemma ShouldAnalyze_Base env a path :
  a ∈ NewProjectAnalyzer env → ShouldAnalyze a path = true →
  filepath.Base path ∈ manifestNames
  ∧ signatureType (filepath.Base path) = Some (AnalyzerName a).
Proof.
  unfold NewProjectAnalyzer, manifestNames. rewrite !elem_of_cons, elem_of_nil.
  intros [->|[->|[->|[->|[->|[]]]]]]; simpl;
    intros ->%bool_decide_eq_true; (split; [set_solver|reflexivity]).
Qed.

Lemma block_no_match env path file :
  (∀ a, a ∈ NewProjectAnalyzer env → ShouldAnalyze a path = false) →
  block env (path, file) = [].
Proof.
  intros Hnone. unfold block. rewrite dispatch_outputs. cbn [fst snd].
  induction (NewProjectAnalyzer env) as [|a l IH]; [done|].
  simpl. unfold output at 1. rewrite Hnone by apply list_elem_of_here.
  apply IH. intros b Hb. apply Hnone. by apply list_elem_of_further.
Qed.

(** X3: the detector and the analyzers agree on the manifests: when an
    analyzer matches the path of an entry of the directory, the [switch]
    of the detector gives the entry's name the analyzer's own name as
    type. So a directory is detected as "unknown" only if no analyzer
    matches any of its entries, and whatever [AnalyzeDir] then returns for
    it comes from below its subdirectories. *)
Theorem X3_detector_matches_analyzers env dir names :
  Forall entryName names →
  (∀ name a, name ∈ names → a ∈ NewProjectAnalyzer env →
     ShouldAnalyze a (filepath.Join dir name) = true →
     signatureType name = Some (AnalyzerName a)) ∧
  (DetectProjectType (Some names) = lit "unknown" →
   ∀ name a, name ∈ names → a ∈ NewProjectAnalyzer env →
     ShouldAnalyze a (filepath.Join dir name) = false) ∧
  (DetectProjectType (Some names) = lit "unknown" →
   ∀ name file, name ∈ names → block env (filepath.Join dir name, file) = []).
Proof.
  intros Hnames. rewrite Forall_forall in Hnames.
  assert (Hagree : ∀ name a, name ∈ names → a ∈ NewProjectAnalyzer env →
            ShouldAnalyze a (filepath.Join dir name) = true →
            signatureType name = Some (AnalyzerName a)).
  { intros name a Hin Ha Hshould.
    destruct (ShouldAnalyze_Base env a _ Ha Hshould) as [_ Hsig].
    by rewrite Base_Join in Hsig by auto. }
  assert (Hnone : DetectProjectType (Some names) = lit "unknown" →
            ∀ name a, name ∈ names → a ∈ NewProjectAnalyzer env →
              ShouldAnalyze a (filepath.Join dir name) = false).
  { simpl. rewrite detectLoop_unknown, Forall_forall.
    intros Hunknown name a Hin Ha.
    destruct (ShouldAnalyze a (filepath.Join dir name)) eqn:Hshould; [|done].
    pose proof (Hunknown name Hin) as Hu.
    by rewrite (Hagree name a Hin Ha Hshould) in Hu. }
  split_and!; [done|done|].
  intros Hunknown name file Hin. apply block_no_match.
  intros a Ha. by apply Hnone.
Qed.

Lemma X3_detector_matches_analyzers_witness :
  signatureType "go.mod" = Some (lit "go") ∧
  block envForward (filepath.Join "/proj" "README.md", Some (lit "flask==1.0")) = [].
Proof.
  assert (Hnames : Forall entryName [lit "go.mod"]).
  { constructor; [|constructor]. split; [discriminate|decide_notin]. }
  assert (Hnames' : Forall entryName [lit "README.md"; lit "src"]).
  { repeat constructor; try discriminate; decide_notin. }
  split.
  - apply (proj1 (X3_detector_matches_analyzers envForward "/proj" _ Hnames)
             "go.mod" NewGoAnalyzer).
    + apply list_elem_of_here.
    + do 2 apply list_elem_of_further. apply list_elem_of_here.
    + reflexivity.
  - apply (proj2 (proj2 (X3_detector_matches_analyzers envForward "/proj" _ Hnames'))).
    + reflexivity.
    + apply list_elem_of_here.
Defined.

(** X4: at most one analyzer matches a path. The records a visited path
    adds to the aggregate are those of the analyzer that matches it, or
    none when no analyzer matches or the matching one fails. *)
Theorem X4_one_analyzer_per_path env path file :
  (∀ a b, a ∈ NewProjectAnalyzer env → b ∈ NewProjectAnalyzer env →
     ShouldAnalyze a path = true → ShouldAnalyze b path = true → a = b) ∧
  (∀ a, a ∈ NewProjectAnalyzer env → ShouldAnalyze a path = true →
     block env (path, file) = default [] (Analyze a path file)) ∧
  ((∀ a, a ∈ NewProjectAnalyzer env → ShouldAnalyze a path = false) →
   block env (path, file) = []).
Proof.
  split_and!.
  - unfold NewProjectAnalyzer. intros a b. rewrite !elem_of_cons, !elem_of_nil.
    intros [->|[->|[->|[->|[->|[]]]]]] [->|[->|[->|[->|[->|[]]]]]]; try done;
      cbn [ShouldAnalyze NewNPMAnalyzer NewPyPIAnalyzer NewGoAnalyzer
           NewCargoAnalyzer NewMavenAnalyzer];
      unfold NPM.ShouldAnalyze, PyPI.ShouldAnalyze, Go.ShouldAnalyze,
        Cargo.ShouldAnalyze, Maven.ShouldAnalyze;
      intros Heq%bool_decide_eq_true; rewrite Heq;
      by intros ?%bool_decide_eq_true.
  - intros a Ha Hshould. unfold block. rewrite dispatch_outputs.
    cbn [fst snd NewProjectAnalyzer flat_map]. unfold output.
    revert Ha Hshould. unfold NewProjectAnalyzer.
    rewrite !elem_of_cons, elem_of_nil.
    intros [->|[->|[->|[->|[->|[]]]]]];
      cbn [ShouldAnalyze Analyze NewNPMAnalyzer NewPyPIAnalyzer NewGoAnalyzer
           NewCargoAnalyzer NewMavenAnalyzer];
      unfold NPM.ShouldAnalyze, PyPI.ShouldAnalyze, Go.ShouldAnalyze,
        Cargo.ShouldAnalyze, Maven.ShouldAnalyze;
      intros Heq%bool_decide_eq_true; rewrite Heq;
      rewrite ?bool_decide_eq_true_2 by done;
      rewrite ?bool_decide_eq_false_2 by done;
      by rewrite ?app_nil_r.
  - apply block_no_match.
Qed.

Lemma X4_one_analyzer_per_path_witness :
  block envForward (lit "/proj/requirements.txt", Some (lit "flask==2.2.0"))
  = [PyPI.component "flask" "2.2.0"].
Proof.
  refine (eq_trans (proj1 (proj2 (X4_one_analyzer_per_path envForward
            "/proj/requirements.txt" (Some (lit "flask==2.2.0"))))
            NewPyPIAnalyzer _ _) _).
  - apply list_elem_of_further, list_elem_of_here.
  - reflexivity.
  - reflexivity.
Defined.

(** ** The aggregate *)

Lemma block_directory env path : block env (path, None) = [].
Proof. unfold block. apply dispatch_read_error. Qed.

Lemma flat_map_flat_map {A B C} (f : A → list B) (g : B → list C) (l : list A) :
  flat_map g (flat_map f l) = flat_map (λ x, flat_map g (f x)) l.
Proof.
  induction l as [|x l IH]; [done|]. simpl. by rewrite flat_map_app, IH.
Qed.

(** X5: the aggregate of a directory is the concatenation, in the order
    of the listing, of the aggregates [AnalyzeDir] returns for its
    entries: a file gives the records of its analyzer, a pruned or
    unreadable directory gives none, and no record is dropped or merged,
    so a dependency declared in several manifests appears once for
    each. *)
Theorem X5_aggregate_composes env dir :
  (∀ entries, pruned dir = false →
     AnalyzeDir env dir (os.Dir true entries)
     = Some (flat_map (λ '(name, child),
                         default [] (AnalyzeDir env (filepath.Join dir name) child))
                      entries)) ∧
  (∀ entries, pruned dir = true → AnalyzeDir env dir (os.Dir true entries) = Some []) ∧
  (∀ entries, AnalyzeDir env dir (os.Dir false entries) = Some []) ∧
  (∀ content, AnalyzeDir env dir (os.File content) = Some (block env (dir, content))).
Proof.
  split_and!.
  - intros entries Hp. rewrite AnalyzeDir_visited. simpl. rewrite Hp. simpl.
    rewrite block_directory. simpl. f_equal.
    rewrite flat_map_flat_map. induction entries as [|[name child] entries IH]; [done|].
    simpl. by rewrite IH, AnalyzeDir_visited.
  - intros entries Hp. rewrite AnalyzeDir_visited. simpl. by rewrite Hp.
  - intros entries. by rewrite AnalyzeDir_visited.
  - intros content. rewrite AnalyzeDir_visited. simpl. by rewrite app_nil_r.
Qed.

Lemma X5_aggregate_composes_witness :
  AnalyzeDir envForward "/proj" projectTree
  = Some (flat_map (λ '(name, child),
                      default [] (AnalyzeDir envForward (filepath.Join "/proj" name) child))
                   [ (lit "node_modules",
                      os.Dir true [ (lit "pkg", os.Dir true [ (lit "package.json",
                                                  os.File (Some twoDepsJSON)) ]) ]);
                     (lit "package.json", os.File (Some expressJSON)) ]).
Proof.
  apply (proj1 (X5_aggregate_composes envForward "/proj")). reflexivity.
Defined.

Lemma visited_unreadable env path n :
  unreadable n → flat_map (block env) (visited path n) = [].
Proof.
  intros [->|[->|[entries ->]]]; simpl; [done| |done].
  by rewrite block_directory.
Qed.

(** X6: an entry on which [Lstat] fails, a file that cannot be read and a
    directory that cannot be listed add nothing to the aggregate and do
    not end the walk: the aggregate is the one of the same directory
    without that entry, the entries listed after it included. *)
Theorem X6_unreadable_entries_are_skipped env dir before name bad after :
  unreadable bad →
  AnalyzeDir env dir (os.Dir true (before ++ (name, bad) :: after))
  = AnalyzeDir env dir (os.Dir true (before ++ after)).
Proof.
  intros Hbad. rewrite !AnalyzeDir_visited. simpl.
  destruct (pruned dir); [done|]. simpl. do 2 f_equal.
  rewrite !flat_map_app. simpl. rewrite !flat_map_app.
  by rewrite (visited_unreadable env _ bad Hbad).
Qed.

Lemma X6_unreadable_entries_are_skipped_witness :
  AnalyzeDir envForward "/proj"
    (os.Dir true [ (lit "locked", os.Dir false []);
                   (lit "package.json", os.File (Some expressJSON)) ])
  = AnalyzeDir envForward "/proj"
      (os.Dir true [ (lit "package.json", os.File (Some expressJSON)) ]).
Proof.
  apply (X6_unreadable_entries_are_skipped envForward "/proj" [] "locked"
           (os.Dir false []) [(lit "package.json", os.File (Some expressJSON))]).
  right. right. by exists [].
Defined.

(** ** The lines of a [go.mod] *)

Lemma lastSpaceWidth_suffix (a s : gostring) :
  strings.lastSpaceWidth (a ++ s) = 0 → strings.lastSpaceWidth s = 0.
Proof.
  rewrite !lastSpaceWidth_zero. intros Has r Hr.
  destruct (strings.HasSuffix s r) eqn:Hs; [|done].
  apply HasSuffix_true in Hs as [b ->].
  rewrite <- (Has r Hr). symmetry. apply HasSuffix_true. exists (a ++ b).
  by rewrite app_assoc.
Qed.

Lemma space_is_rune : [" "%char] ∈ strings.spaceRunes.
Proof. decide_notin. Qed.

Lemma spaceWidth_head (c : ascii) (s : gostring) :
  strings.spaceWidth (c :: s) = 0 → c ≠ " "%char.
Proof.
  intros Hw ->. apply spaceWidth_zero with (r := [" "%char]) in Hw.
  - discriminate Hw.
  - apply space_is_rune.
Qed.

Lemma drop_rune_nonempty (s : gostring) (w : nat) :
  strings.spaceWidth s = S w → strings.lastSpaceWidth s = 0 → drop (S w) s ≠ [].
Proof.
  intros Hw Hlast Hdrop.
  apply spaceWidth_rune in Hw as (r & b & -> & Hr & Hlen).
  rewrite <- Hlen, drop_app_length in Hdrop. subst b. rewrite app_nil_r in Hlast.
  apply lastSpaceWidth_zero with (r := r) in Hlast; [|done].
  assert (strings.HasSuffix r r = true) as Hrr; [|congruence].
  apply HasSuffix_true. by exists [].
Qed.

Lemma fieldsFrom_nonempty (fuel : nat) (cur s : gostring) :
  length s ≤ fuel → strings.lastSpaceWidth s = 0 → cur ++ s ≠ [] →
  strings.fieldsFrom fuel cur s ≠ [].
Proof.
  revert cur s. induction fuel as [|fuel IH]; intros cur s Hfuel Hlast Hne.
  - destruct s; [|simpl in Hfuel; lia]. rewrite app_nil_r in Hne.
    by destruct cur.
  - destruct s as [|c s].
    { rewrite app_nil_r in Hne. by destruct cur. }
    cbn [strings.fieldsFrom]. simpl in Hfuel.
    destruct (strings.spaceWidth (c :: s)) as [|w] eqn:Hw.
    + apply IH; [lia|by apply (lastSpaceWidth_suffix [c])|].
      by destruct cur.
    + intros [_ Hnil]%app_eq_nil. revert Hnil. apply IH.
      * rewrite length_drop. simpl. lia.
      * apply (lastSpaceWidth_suffix (take (S w) (c :: s))).
        by rewrite take_drop.
      * by apply drop_rune_nonempty.
Qed.

Lemma fieldsFrom_two (fuel : nat) (cur s : gostring) :
  length s ≤ fuel → strings.lastSpaceWidth s = 0 → " "%char ∈ s → cur ≠ [] →
  ∃ field0 field1 fields, strings.fieldsFrom fuel cur s = field0 :: field1 :: fields.
Proof.
  revert fuel cur. induction s as [|c s IH]; intros fuel cur Hfuel Hlast Hin Hcur.
  { by apply elem_of_nil in Hin. }
  destruct fuel as [|fuel]; [simpl in Hfuel; lia|]. simpl in Hfuel.
  cbn [strings.fieldsFrom].
  destruct (strings.spaceWidth (c :: s)) as [|w] eqn:Hw.
  - apply IH; [lia|by apply (lastSpaceWidth_suffix [c])| |by destruct cur].
    apply elem_of_cons in Hin as [Heq|Hin]; [|done].
    by destruct (spaceWidth_head c s Hw).
  - destruct (strings.fieldsFrom fuel [] (drop (S w) (c :: s))) as [|f fs] eqn:Hrest.
    + exfalso. revert Hrest. apply fieldsFrom_nonempty.
      * rewrite length_drop. simpl. lia.
      * apply (lastSpaceWidth_suffix (take (S w) (c :: s))).
        by rewrite take_drop.
      * by apply drop_rune_nonempty.
    + destruct cur as [|c' cur]; [done|]. by eexists _, _, _.
Qed.

Lemma Fields_two (l : gostring) :
  trimmed l → " "%char ∈ l →
  ∃ field0 field1 fields, strings.Fields l = field0 :: field1 :: fields.
Proof.
  intros [Hfirst Hlast] Hin. unfold strings.Fields.
  destruct l as [|c l]; [by apply elem_of_nil in Hin|].
  cbn [length strings.fieldsFrom]. rewrite Hfirst.
  apply fieldsFrom_two; [done|by apply (lastSpaceWidth_suffix [c])| |done].
  apply elem_of_cons in Hin as [Heq|Hin]; [|done].
  by destruct (spaceWidth_head c l Hfirst).
Qed.

(** X7: of the two tests that select a line of a [go.mod], the prefix
    [require ] and the non-empty text add nothing: a line is split exactly
    when its trimmed text contains a space character. Every such line has
    two fields at least and yields exactly one record, made of its first
    two fields, so the [module] and [go] directives and the opening
    [require (] yield records like the requirements do; a line without a
    space yields none. *)
Theorem X7_go_line_with_space comps line :
  let l := strings.TrimSpace line in
  Go.candidate l = strings.Contains l " " ∧
  (" "%char ∈ l →
   ∃ field0 field1 fields,
     strings.Fields l = field0 :: field1 :: fields ∧
     Go.analyzeLine comps line = comps ++ [Go.component field0 field1]) ∧
  (" "%char ∉ l → Go.analyzeLine comps line = comps).
Proof.
  intros l.
  assert (Hcand : Go.candidate l = strings.Contains l " ").
  { unfold Go.candidate. destruct (strings.HasPrefix l "require ") eqn:Hreq.
    - apply HasPrefix_true in Hreq as [rest Hreq]. symmetry.
      apply Contains_true. exists (lit "require"), rest. by rewrite Hreq.
    - destruct l; [done|]. by rewrite bool_decide_eq_false_2. }
  split_and!; [done| |].
  - intros Hin.
    destruct (Fields_two l) as (field0 & field1 & fields & Hfields);
      [apply TrimSpace_trimmed|done|].
    exists field0, field1, fields. split; [done|].
    unfold Go.analyzeLine. fold l. rewrite Hcand.
    change (lit " ") with [" "%char].
    rewrite (proj2 (Contains_byte l " "%char) Hin), Hfields.
    by rewrite !(TrimSpace_field l) by (rewrite Hfields; set_solver).
  - intros Hnotin. unfold Go.analyzeLine. fold l. rewrite Hcand.
    change (lit " ") with [" "%char].
    destruct (strings.Contains l [" "%char]) eqn:Hc; [|done].
    by apply Contains_byte in Hc.
Qed.

Lemma X7_go_line_with_space_witness :
  ∃ field0 field1 fields,
    strings.Fields (strings.TrimSpace "go 1.21") = field0 :: field1 :: fields ∧
    Go.analyzeLine [] "go 1.21" = [] ++ [Go.component field0 field1].
Proof.
  apply (proj1 (proj2 (X7_go_line_with_space [] "go 1.21"))). decide_notin.
Defined.

(** ** The lines of a manifest *)

Lemma Index_byte_None (s : gostring) (c : ascii) :
  c ∉ s → strings.Index s [c] = None.
Proof.
  intros Hc. apply Contains_false.
  destruct (strings.Contains s [c]) eqn:Hs; [|done].
  by apply Contains_byte in Hs.
Qed.

Lemma drop_after_byte (a b : gostring) (c : ascii) :
  drop (length a + length [c]) (a ++ c :: b) = b.
Proof. induction a as [|x a IH]; [done|]. exact IH. Qed.

Lemma genSplit_app_byte (n : nat) (a b : gostring) (c : ascii) :
  length a ≤ n →
  strings.genSplit (n + S (length b)) (a ++ c :: b) [c]
  = strings.genSplit n a [c] ++ strings.genSplit (length b) b [c].
Proof.
  revert a. induction n as [|n IH]; intros a Hn.
  - destruct a; [|simpl in Hn; lia].
    cbn [Nat.add strings.genSplit app].
    pose proof (Index_byte [] b c (not_elem_of_nil c)) as Hi. cbn [app length] in Hi.
    by rewrite Hi.
  - cbn [Nat.add strings.genSplit].
    destruct (decide (c ∈ a)) as [Hin|Hnotin].
    + apply list_elem_of_split_l in Hin as (a1 & a2 & -> & Hnotin).
      rewrite <- app_assoc. cbn [app].
      rewrite !Index_byte by done.
      rewrite !take_app_length, !drop_after_byte. cbn [app]. f_equal.
      apply IH. rewrite length_app in Hn. simpl in Hn. lia.
    + rewrite Index_byte by done. rewrite Index_byte_None by done.
      rewrite take_app_length, drop_after_byte. cbn [app]. f_equal.
      apply genSplit_bound; [done|lia|lia].
Qed.

Lemma splitLines_app (head rest : gostring) :
  splitLines (head ++ newline :: rest) = splitLines head ++ splitLines rest.
Proof.
  unfold splitLines, strings.Split. rewrite length_app. cbn [length].
  by apply genSplit_app_byte.
Qed.

Lemma splitLines_line (line : gostring) :
  newline ∉ line → splitLines line = [line].
Proof. intros Hline. by apply Split_None, Index_byte_None. Qed.

Lemma Go_analyzeLine_app comps line :
  Go.analyzeLine comps line = comps ++ Go.analyzeLine [] line.
Proof.
  unfold Go.analyzeLine. repeat case_match; by rewrite ?app_nil_r.
Qed.

(** X8: the records of a [requirements.txt] and of a [go.mod] are read
    line by line with no state: reading never fails on a readable file,
    and the records of two texts joined by a line feed are the records of
    the first followed by those of the second. *)
Theorem X8_stateless_manifests_compose path head rest :
  (∃ a b, PyPI.Analyze path (Some head) = Some a ∧
          PyPI.Analyze path (Some rest) = Some b ∧
          PyPI.Analyze path (Some (head ++ newline :: rest)) = Some (a ++ b)) ∧
  (∃ a b, Go.Analyze path (Some head) = Some a ∧
          Go.Analyze path (Some rest) = Some b ∧
          Go.Analyze path (Some (head ++ newline :: rest)) = Some (a ++ b)).
Proof.
  split; eexists _, _; (split; [reflexivity|split; [reflexivity|]]).
  - unfold PyPI.Analyze. cbn [mbind option_bind]. f_equal.
    rewrite splitLines_app, foldl_app.
    rewrite (foldl_flat_map PyPI.analyzeLine (splitLines rest) (foldl _ _ _))
      by apply PyPI_analyzeLine_app.
    by rewrite (foldl_flat_map PyPI.analyzeLine (splitLines rest) [])
      by apply PyPI_analyzeLine_app.
  - unfold Go.Analyze. cbn [mbind option_bind]. f_equal.
    rewrite splitLines_app, foldl_app.
    rewrite (foldl_flat_map Go.analyzeLine (splitLines rest) (foldl _ _ _))
      by apply Go_analyzeLine_app.
    by rewrite (foldl_flat_map Go.analyzeLine (splitLines rest) [])
      by apply Go_analyzeLine_app.
Qed.

(** ** The sections of a [Cargo.toml] and of a [pom.xml] *)

Section state_loops.

Context {A : Type} (f : bool * list Component → A → bool * list Component).
Hypothesis f_app : ∀ b comps x,
  f (b, comps) x = ((f (b, []) x).1, comps ++ (f (b, []) x).2).

Lemma foldl_state_app (l : list A) (b : bool) (comps : list Component) :
  foldl f (b, comps) l
  = ((foldl f (b, []) l).1, comps ++ (foldl f (b, []) l).2).
Proof.
  revert b comps. induction l as [|x l IH]; intros b comps.
  - simpl. by rewrite app_nil_r.
  - cbn [foldl]. rewrite f_app. destruct (f (b, []) x) as [b' comps'].
    cbn [fst snd]. rewrite IH, (IH b' comps'). cbn [fst snd].
    by rewrite app_assoc.
Qed.

Lemma foldl_state_skip (P : A → Prop) (l : list A) (comps : list Component) :
  (∀ comps x, P x → f (false, comps) x = (false, comps)) →
  Forall P l → foldl f (false, comps) l = (false, comps).
Proof.
  intros Hskip. induction 1 as [|x l Hx _ IH]; [done|].
  cbn [foldl]. by rewrite Hskip.
Qed.

Lemma foldl_state_length (l : list A) (b : bool) :
  (∀ b x, length (f (b, []) x).2 ≤ 1) →
  length (foldl f (b, []) l).2 ≤ length l.
Proof.
  intros Hone. revert b. induction l as [|x l IH]; intros b; [done|].
  cbn [foldl]. pose proof (Hone b x) as Hx.
  destruct (f (b, []) x) as [b' comps']. rewrite foldl_state_app.
  cbn [fst snd] in *. rewrite length_app. specialize (IH b'). simpl. lia.
Qed.

End state_loops.

Lemma Cargo_analyzeLine_app b comps line :
  Cargo.analyzeLine (b, comps) line
  = ((Cargo.analyzeLine (b, []) line).1,
     comps ++ (Cargo.analyzeLine (b, []) line).2).
Proof.
  unfold Cargo.analyzeLine. repeat case_match; simplify_eq;
    by rewrite ?app_nil_r.
Qed.

Lemma Cargo_analyzeLine_outside comps line :
  strings.HasPrefix (strings.TrimSpace line) "[dependencies]" = false →
  Cargo.analyzeLine (false, comps) line = (false, comps).
Proof.
  intros Hline. unfold Cargo.analyzeLine. rewrite Hline.
  by destruct (strings.HasPrefix _ "[").
Qed.

Lemma Maven_parseLine_app b comps line :
  Maven.parseLine (b, comps) line
  = ((Maven.parseLine (b, []) line).1,
     comps ++ (Maven.parseLine (b, []) line).2).
Proof.
  rewrite !parseLine_cases. cbn zeta. repeat case_match; simplify_eq;
    by rewrite ?app_nil_r.
Qed.

Lemma Maven_parseLine_outside comps line :
  strings.Contains (strings.TrimSpace line) "<dependencies>" = false →
  Maven.parseLine (false, comps) line = (false, comps).
Proof.
  intros Hline. rewrite parseLine_cases. cbn zeta. rewrite Hline.
  by destruct (strings.Contains _ "</dependencies>").
Qed.

(** X9: a [Cargo.toml] yields records only from its [[dependencies]]
    sections. The text before the first line that starts such a section
    yields none, whatever it holds; and a section with another header
    yields none and ends the section before it, so the records of the
    file are those of the text before that header followed by those of
    the text after the section. *)
Theorem X9_cargo_sections path :
  let outside := λ line,
    strings.HasPrefix (strings.TrimSpace line) "[dependencies]" = false in
  (∀ head rest, Forall outside (splitLines head) →
     Cargo.Analyze path (Some head) = Some [] ∧
     Cargo.Analyze path (Some (head ++ newline :: rest))
     = Cargo.Analyze path (Some rest)) ∧
  (∀ head header body rest,
     newline ∉ header → outside header →
     strings.HasPrefix (strings.TrimSpace header) "[" = true →
     Forall outside (splitLines body) →
     ∃ a b, Cargo.Analyze path (Some head) = Some a ∧
            Cargo.Analyze path (Some rest) = Some b ∧
            Cargo.Analyze path
              (Some (head ++ newline :: header ++ newline :: body ++ newline :: rest))
            = Some (a ++ b)).
Proof.
  intros outside. split.
  - intros head rest Hhead. unfold Cargo.Analyze. cbn [mbind option_bind].
    rewrite splitLines_app, foldl_app.
    rewrite (foldl_state_skip _ outside (splitLines head))
      by (done || apply Cargo_analyzeLine_outside). done.
  - intros head header body rest Hnl Hout Hsect Hbody.
    eexists _, _. split; [reflexivity|]. split; [reflexivity|].
    unfold Cargo.Analyze. cbn [mbind option_bind]. f_equal.
    rewrite !splitLines_app, !foldl_app, (splitLines_line header) by done.
    destruct (foldl Cargo.analyzeLine (false, []) (splitLines head))
      as [b comps]. cbn [foldl fst snd].
    assert (Hheader : Cargo.analyzeLine (b, comps) header = (false, comps)).
    { unfold Cargo.analyzeLine. unfold outside in Hout. by rewrite Hout, Hsect. }
    rewrite Hheader.
    rewrite (foldl_state_skip _ outside (splitLines body))
      by (done || apply Cargo_analyzeLine_outside).
    rewrite (foldl_state_app _ Cargo_analyzeLine_app). done.
Qed.

Lemma X9_cargo_sections_witness :
  Cargo.Analyze "Cargo.toml"
    (Some ("[package]" ++ newline :: "name = " ++ quoted "x" ++ newline
           :: "[dependencies]" ++ newline :: "serde = " ++ quoted "1.0"))
  = Cargo.Analyze "Cargo.toml"
      (Some ("[dependencies]" ++ newline :: "serde = " ++ quoted "1.0")).
Proof.
  refine (eq_trans _ (proj2 (proj1 (X9_cargo_sections "Cargo.toml")
            ("[package]" ++ newline :: "name = " ++ quoted "x")
            ("[dependencies]" ++ newline :: "serde = " ++ quoted "1.0") _))).
  - reflexivity.
  - vm_compute. repeat constructor.
Defined.

(** X10: a [pom.xml] yields records only from the lines after one that
    contains [<dependencies>]. The text before the first such line yields
    none; and a line that contains [</dependencies>] ends the block, so
    that this line and the lines after it up to the next [<dependencies>]
    yield none, and the records of the file are those of the text before
    that line followed by those of the text after these lines. *)
Theorem X10_pom_blocks :
  let outside := λ line,
    strings.Contains (strings.TrimSpace line) "<dependencies>" = false in
  (∀ head rest, Forall outside (splitLines head) →
     Maven.parsePomXML head = [] ∧
     Maven.parsePomXML (head ++ newline :: rest) = Maven.parsePomXML rest) ∧
  (∀ head closing body rest,
     newline ∉ closing → outside closing →
     strings.Contains (strings.TrimSpace closing) "</dependencies>" = true →
     Forall outside (splitLines body) →
     Maven.parsePomXML
       (head ++ newline :: closing ++ newline :: body ++ newline :: rest)
     = Maven.parsePomXML head ++ Maven.parsePomXML rest).
Proof.
  intros outside. split.
  - intros head rest Hhead. unfold Maven.parsePomXML.
    rewrite splitLines_app, foldl_app.
    rewrite (foldl_state_skip _ outside (splitLines head))
      by (done || apply Maven_parseLine_outside). done.
  - intros head closing body rest Hnl Hout Hclose Hbody.
    unfold Maven.parsePomXML.
    rewrite !splitLines_app, !foldl_app, (splitLines_line closing) by done.
    destruct (foldl Maven.parseLine (false, []) (splitLines head))
      as [b comps]. cbn [foldl fst snd].
    assert (Hclosing : Maven.parseLine (b, comps) closing = (false, comps)).
    { rewrite parseLine_cases. cbn zeta. unfold outside in Hout.
      by rewrite Hout, Hclose. }
    rewrite Hclosing.
    rewrite (foldl_state_skip _ outside (splitLines body))
      by (done || apply Maven_parseLine_outside).
    rewrite (foldl_state_app _ Maven_parseLine_app). done.
Qed.

Lemma X10_pom_blocks_witness :
  Maven.parsePomXML
    ("<project>" ++ newline :: "<artifactId>app</artifactId><version>1</version>"
     ++ newline :: "<dependencies>" ++ newline
     :: "<artifactId>lib</artifactId><version>2</version>")
  = Maven.parsePomXML
      ("<dependencies>" ++ newline
       :: "<artifactId>lib</artifactId><version>2</version>").
Proof.
  refine (eq_trans _ (proj2 (proj1 X10_pom_blocks
            ("<project>" ++ newline
             :: "<artifactId>app</artifactId><version>1</version>")
            ("<dependencies>" ++ newline
             :: "<artifactId>lib</artifactId><version>2</version>") _))).
  - reflexivity.
  - vm_compute. repeat constructor.
Defined.

Lemma flat_map_length_le {A B} (f : A → list B) (l : list A) :
  (∀ x, length (f x) ≤ 1) → length (flat_map f l) ≤ length l.
Proof.
  intros Hone. induction l as [|x l IH]; [done|].
  simpl. rewrite length_app. specialize (Hone x). lia.
Qed.

(** X11: the four analyzers that read a manifest line by line never fail
    on a readable file, and return at most one record for each line of
    it. *)
Theorem X11_one_record_per_line path data :
  Forall (λ a, ∃ comps, Analyze a path (Some data) = Some comps
                        ∧ length comps ≤ length (splitLines data))
         [NewPyPIAnalyzer; NewGoAnalyzer; NewCargoAnalyzer; NewMavenAnalyzer].
Proof.
  repeat apply List.Forall_cons; [| | | |apply List.Forall_nil];
    (eexists; split; [reflexivity|]).
  - rewrite foldl_flat_map by apply PyPI_analyzeLine_app.
    apply flat_map_length_le. intros line.
    unfold PyPI.analyzeLine. repeat case_match; simpl; lia.
  - rewrite foldl_flat_map by apply Go_analyzeLine_app.
    apply flat_map_length_le. intros line.
    unfold Go.analyzeLine. repeat case_match; simpl; lia.
  - apply (foldl_state_length _ Cargo_analyzeLine_app). intros b line.
    unfold Cargo.analyzeLine. repeat case_match; simpl; lia.
  - apply (foldl_state_length _ Maven_parseLine_app). intros b line.
    rewrite parseLine_cases. cbn zeta. repeat case_match; simpl; lia.
Qed.

(** ** The cells of the table *)

(** X12: [truncate] is declared twice, in [formatter] and in [main], with
    the same result. With a width of three or more, as at every call, it
    never panics and its result fits the width: the text itself when it
    fits, else the first [max - 3] bytes of it followed by three dots,
    [max] bytes in all. With a smaller width it panics exactly when the
    text does not fit. *)
Theorem X12_truncate_fits s (max : Z) :
  main.truncate s max = formatter.truncate s max ∧
  ((3 ≤ max)%Z →
   ∃ t, formatter.truncate s max = Some t ∧
        (Z.of_nat (length t) ≤ max)%Z ∧
        ((Z.of_nat (length s) ≤ max)%Z → t = s) ∧
        ((max < Z.of_nat (length s))%Z →
         t = take (Z.to_nat (max - 3)) s ++ "..." ∧ Z.of_nat (length t) = max)) ∧
  ((max < 3)%Z →
   (formatter.truncate s max = None ↔ (max < Z.of_nat (length s))%Z)).
Proof.
  split; [done|]. unfold formatter.truncate. split.
  - intros Hmax. destruct (Z.leb_spec (Z.of_nat (length s)) max) as [Hfit|Hlong].
    + exists s. split_and!; [done|done|done|lia].
    + destruct (Z.ltb_spec (max - 3) 0) as [Hneg|_]; [lia|].
      assert (Hlen : Z.of_nat (length (take (Z.to_nat (max - 3)) s ++ lit "...")) = max).
      { rewrite length_app, length_take. change (length (lit "...")) with 3. lia. }
      eexists. split_and!; [done|lia|lia|done].
  - intros Hmax. destruct (Z.leb_spec (Z.of_nat (length s)) max) as [Hfit|Hlong].
    + split; [done|lia].
    + destruct (Z.ltb_spec (max - 3) 0) as [_|Hpos]; [done|lia].
Qed.

Lemma X12_truncate_fits_witness :
  ∃ t, formatter.truncate "github.com/gin-gonic/gin" 15 = Some t ∧
       (Z.of_nat (length t) ≤ 15)%Z ∧
       ((Z.of_nat (length (lit "github.com/gin-gonic/gin")) ≤ 15)%Z
        → t = lit "github.com/gin-gonic/gin") ∧
       ((15 < Z.of_nat (length (lit "github.com/gin-gonic/gin")))%Z →
        t = take (Z.to_nat (15 - 3)) (lit "github.com/gin-gonic/gin") ++ "..."
        ∧ Z.of_nat (length t) = 15%Z).
Proof.
  apply (proj1 (proj2 (X12_truncate_fits "github.com/gin-gonic/gin" 15))). lia.
Defined.

Lemma truncate_12 (purl : gostring) :
  formatter.truncate purl 12
  = Some (if 12 <? length purl then take 9 purl ++ "..." else purl).
Proof.
  unfold formatter.truncate.
  destruct (Z.leb_spec (Z.of_nat (length purl)) 12) as [Hfit|Hlong];
    destruct (Nat.ltb_spec 12 (length purl)); try lia; done.
Qed.

(** X13: the shortening of the package URL that [TableFormatter.Format]
    (to 35 bytes) and [analyze] (to 12 bytes) do before they call
    [truncate] changes nothing: in both tables the last cell is
    [truncate] of the package URL itself to 12 bytes. It never panics,
    and of a longer package URL it shows the first nine bytes and three
    dots. *)
Theorem X13_purl_cell purl :
  formatter.purlCell purl = formatter.truncate purl 12 ∧
  main.purlCell purl = formatter.truncate purl 12 ∧
  formatter.truncate purl 12
  = Some (if 12 <? length purl then take 9 purl ++ "..." else purl).
Proof.
  split_and!; [| |apply truncate_12].
  - unfold formatter.purlCell, formatter.shortPURL.
    destruct (Nat.ltb_spec 35 (length purl)) as [Hlong|_]; [|done].
    rewrite !truncate_12.
    assert (Hlen : length (take 32 purl ++ lit "...") = 35).
    { rewrite length_app, length_take. change (length (lit "...")) with 3. lia. }
    rewrite Hlen. destruct (Nat.ltb_spec 12 (length purl)); [|lia].
    change (12 <? 35) with true. cbn iota.
    rewrite take_app_le by (rewrite length_take; lia).
    by rewrite take_take.
  - unfold main.purlCell, main.shortPURL.
    change main.truncate with formatter.truncate. rewrite !truncate_12.
    destruct (12 <? length purl) eqn:Hlong; cbn iota; [|by rewrite Hlong].
    apply Nat.ltb_lt in Hlong.
    assert (Hlen : length (take 9 purl ++ lit "...") = 12).
    { rewrite length_app, length_take. change (length (lit "...")) with 3. lia. }
    by rewrite Hlen.
Qed.

(** ** The formats *)

(** X14: [GetFormatter] and [Name] are inverse of each other on the six
    formats; any other name, the empty one among them, gives the JSON
    formatter and no error. So the default [generate] sets when no format
    was given changes nothing: it serializes with the formatter
    [GetFormatter] returns for the format read from the arguments. *)
Theorem X14_formatter_by_name :
  (∀ f, formatter.GetFormatter (formatter.Name f) = f) ∧
  (∀ format,
     formatter.Name (formatter.GetFormatter format) = format
     ∨ ((format ∉ [lit "json"; lit "yaml"; lit "markdown"; lit "table";
                    lit "spdx"; lit "cyclonedx"])
        ∧ formatter.GetFormatter format = formatter.JSONFormatter)) ∧
  (∀ args,
     main.generateFormatter args
     = formatter.GetFormatter
         (main.outputFormat (main.generateArgs main.noOptions args))).
Proof.
  split_and!.
  - intros []; vm_compute; reflexivity.
  - intros format. unfold formatter.GetFormatter.
    repeat (case_bool_decide; [subst; left; vm_compute; reflexivity|]).
    right. split; [|done]. intros Hin.
    repeat (apply elem_of_cons in Hin as [Hin|Hin]; [done|]).
    by apply elem_of_nil in Hin.
  - intros args. unfold main.generateFormatter. cbn zeta.
    case_bool_decide as Hempty; [|done]. by rewrite Hempty.
Qed.

(** ** The command line *)

Lemma flags_disjoint (flag : gostring) :
  (flag ∈ main.outputFlags →
   (flag ∉ main.formatFlags) ∧ (flag ∉ main.dirFlags)) ∧
  (flag ∈ main.formatFlags →
   (flag ∉ main.outputFlags) ∧ (flag ∉ main.dirFlags)) ∧
  (flag ∈ main.dirFlags →
   (flag ∉ main.outputFlags) ∧ (flag ∉ main.formatFlags)).
Proof.
  split_and!; intros Hin;
    repeat (apply elem_of_cons in Hin as [->|Hin]; [split; decide_notin|]);
    by apply elem_of_nil in Hin.
Qed.

Lemma generateArgs_flag opts flag value args :
  flag ∈ generateFlags →
  main.generateArgs opts (flag :: value :: args)
  = main.generateArgs
      {| main.outputFile :=
           if bool_decide (flag ∈ main.outputFlags) then value
           else main.outputFile opts;
         main.outputFormat :=
           if bool_decide (flag ∈ main.formatFlags) then value
           else main.outputFormat opts;
         main.projectDir :=
           if bool_decide (flag ∈ main.dirFlags) then value
           else main.projectDir opts |} args.
Proof.
  intros Hflag. unfold generateFlags in Hflag. rewrite !elem_of_app in Hflag.
  destruct (flags_disjoint flag) as (Ho & Hf & Hd).
  cbn [main.generateArgs]. destruct Hflag as [H|[H|H]].
  - destruct (Ho H) as [H1 H2].
    by rewrite (bool_decide_eq_true_2 _ H), (bool_decide_eq_false_2 _ H1),
      (bool_decide_eq_false_2 _ H2).
  - destruct (Hf H) as [H1 H2].
    by rewrite (bool_decide_eq_true_2 _ H), (bool_decide_eq_false_2 _ H1),
      (bool_decide_eq_false_2 _ H2).
  - destruct (Hd H) as [H1 H2].
    by rewrite (bool_decide_eq_true_2 _ H), (bool_decide_eq_false_2 _ H1),
      (bool_decide_eq_false_2 _ H2).
Qed.

Lemma generateArgs_positional opts arg args :
  arg ∉ generateFlags →
  main.generateArgs opts (arg :: args) = main.generateArgs opts args.
Proof.
  intros Harg. unfold generateFlags in Harg. rewrite !not_elem_of_app in Harg.
  destruct Harg as (Ho & Hf & Hd). cbn [main.generateArgs].
  by rewrite !bool_decide_eq_false_2 by done.
Qed.

Lemma generateArgs_last opts last : main.generateArgs opts [last] = opts.
Proof. cbn [main.generateArgs]. by repeat case_bool_decide. Qed.

(** X15: on a command line made of options, each a flag of [generate]
    followed by its value, and of positional arguments that are no flags,
    [generate] takes for the output file, the format and the directory
    the value of the last option spelled with one of their two flags, and
    keeps what it had when there is none. The positional arguments have
    no effect, a directory written without [-d] among them; and so has
    one more argument at the end, a flag that lacks its value as well. *)
Theorem X15_generate_options items opts :
  Forall wellFormedItem items →
  main.generateArgs opts (tokens items)
  = {| main.outputFile := lastValue main.outputFlags (main.outputFile opts) items;
       main.outputFormat := lastValue main.formatFlags (main.outputFormat opts) items;
       main.projectDir := lastValue main.dirFlags (main.projectDir opts) items |} ∧
  ∀ last, main.generateArgs opts (tokens items ++ [last])
          = main.generateArgs opts (tokens items).
Proof.
  intros Hitems. revert opts.
  induction Hitems as [|it items Hit _ IH]; intros opts.
  - split; [by destruct opts|]. intros last. apply generateArgs_last.
  - destruct it as [flag value|arg].
    + change (tokens (Opt flag value :: items))
        with (flag :: value :: tokens items).
      cbn [app]. split; [|intros last];
        rewrite !generateArgs_flag by exact Hit.
      * by rewrite (proj1 (IH _)).
      * apply IH.
    + change (tokens (Positional arg :: items)) with (arg :: tokens items).
      cbn [app]. split; [|intros last];
        rewrite !generateArgs_positional by exact Hit.
      * by rewrite (proj1 (IH _)).
      * apply IH.
Qed.

Lemma X15_generate_options_witness :
  main.generateArgs main.noOptions
    [lit "-o"; lit "sbom.json"; lit "-f"; lit "json"; lit "./myproject"]
  = {| main.outputFile := "sbom.json"; main.outputFormat := "json";
       main.projectDir := "" |}.
Proof.
  refine (proj1 (X15_generate_options
            [Opt "-o" "sbom.json"; Opt "-f" "json"; Positional "./myproject"]
            main.noOptions _)).
  repeat apply List.Forall_cons; [| | |apply List.Forall_nil];
    cbn [wellFormedItem]; decide_notin.
Defined.

Lemma analyzeArgs_generateArgs (n : nat) (args : list gostring) opts :
  length args ≤ n →
  Forall (λ arg, arg ∉ main.outputFlags ++ main.formatFlags) args →
  main.analyzeArgs (main.projectDir opts) args
  = main.projectDir (main.generateArgs opts args).
Proof.
  revert args opts. induction n as [|n IH]; intros args opts Hn Hargs.
  { destruct args; [done|simpl in Hn; lia]. }
  destruct args as [|arg args]; [done|]. simpl in Hn.
  inversion Hargs as [|? ? Harg Hargs']; subst.
  apply not_elem_of_app in Harg as [Ho Hf].
  cbn [main.analyzeArgs main.generateArgs].
  rewrite (bool_decide_eq_false_2 _ Ho), (bool_decide_eq_false_2 _ Hf).
  destruct (decide (arg ∈ main.dirFlags)) as [Hd|Hd].
  - rewrite (bool_decide_eq_true_2 _ Hd).
    assert (negb (bool_decide (arg = lit "-d"))
            && negb (bool_decide (arg = lit "--dir")) = false) as ->.
    { apply elem_of_cons in Hd as [->|Hd]; [done|].
      apply list_elem_of_singleton in Hd as ->. done. }
    destruct args as [|value args]; [done|].
    inversion Hargs' as [|? ? _ Hargs'']; subst.
    apply (IH args {| main.outputFile := main.outputFile opts;
                      main.outputFormat := main.outputFormat opts;
                      main.projectDir := value |});
      [simpl in Hn; lia|done].
  - rewrite (bool_decide_eq_false_2 _ Hd).
    assert (negb (bool_decide (arg = lit "-d"))
            && negb (bool_decide (arg = lit "--dir")) = true) as ->.
    { rewrite andb_true_iff, !negb_true_iff, !bool_decide_eq_false.
      split; intros ->; apply Hd; decide_notin. }
    apply IH; [lia|done].
Qed.

(** X16: [analyze] reads the directory from its arguments as [generate]
    does, as long as no argument is one of the flags [generate] has for
    the output file and the format. Arguments among which there is no
    [-d] and no [--dir] leave the directory as it was, so that [analyze]
    followed only by a directory works on the current directory. *)
Theorem X16_analyze_directory args :
  (∀ opts, Forall (λ arg, arg ∉ main.outputFlags ++ main.formatFlags) args →
     main.analyzeArgs (main.projectDir opts) args
     = main.projectDir (main.generateArgs opts args)) ∧
  (Forall (λ arg, arg ∉ main.dirFlags) args →
   (∀ projectDir, main.analyzeArgs projectDir args = projectDir) ∧
   main.directory (main.analyzeArgs "" args) = lit ".").
Proof.
  split.
  - intros opts. by apply (analyzeArgs_generateArgs (length args)).
  - intros Hargs.
    assert (Hkeep : ∀ projectDir, main.analyzeArgs projectDir args = projectDir).
    { induction Hargs as [|arg args Harg _ IH]; intros projectDir; [done|].
      cbn [main.analyzeArgs].
      assert (negb (bool_decide (arg = lit "-d"))
              && negb (bool_decide (arg = lit "--dir")) = true) as ->; [|done].
      rewrite andb_true_iff, !negb_true_iff, !bool_decide_eq_false.
      split; intros ->; apply Harg; decide_notin. }
    split; [done|]. by rewrite Hkeep.
Qed.

Lemma X16_analyze_directory_witness :
  main.analyzeArgs "" [lit "--verbose"; lit "-d"; lit "./myapp"]
  = main.projectDir
      (main.generateArgs main.noOptions [lit "--verbose"; lit "-d"; lit "./myapp"])
  ∧ main.directory (main.analyzeArgs "" [lit "./myproject"]) = lit ".".
Proof.
  split.
  - apply (proj1 (X16_analyze_directory
                    [lit "--verbose"; lit "-d"; lit "./myapp"]) main.noOptions).
    repeat apply List.Forall_cons; [| | |apply List.Forall_nil]; decide_notin.
  - apply (proj2 (X16_analyze_directory [lit "./myproject"])).
    repeat apply List.Forall_cons; [|apply List.Forall_nil]; decide_notin.
Defined.

(** ** The fields of the records *)

Lemma Base_nonempty (path : gostring) : filepath.Base path ≠ [].
Proof.
  unfold filepath.Base. destruct path; [done|].
  cbn zeta. by destruct (filepath.afterLastSep _).
Qed.

(** X17: what the line parsers leave in the fields of their records. A
    record of a [go.mod] has a non-empty name and a non-empty version
    that holds no white space; a record of a [pom.xml] has a non-empty
    name and a non-empty version; the name and the version of a record of
    a [requirements.txt], and the name of a record of a [Cargo.toml],
    neither start nor end with white space (they may be empty). *)
Theorem X17_record_fields path file comps :
  (Go.Analyze path file = Some comps →
   Forall (λ c, Name c ≠ [] ∧ Version c ≠ [] ∧ noSpace (Version c)) comps) ∧
  (Maven.Analyze path file = Some comps →
   Forall (λ c, Name c ≠ [] ∧ Version c ≠ []) comps) ∧
  (PyPI.Analyze path file = Some comps →
   Forall (λ c, trimmed (Name c) ∧ trimmed (Version c)) comps) ∧
  (Cargo.Analyze path file = Some comps →
   Forall (λ c, trimmed (Name c)) comps).
Proof.
  split_and!.
  - unfold Go.Analyze. destruct file as [data|]; [simpl|done].
    intros [= <-]. apply foldl_Forall; [|constructor].
    intros acc line Hacc. unfold Go.analyzeLine. cbn zeta.
    destruct (Go.candidate _); [|done].
    destruct (strings.Fields (strings.TrimSpace line))
      as [|field0 [|field1 fields]] eqn:Hfields; [done|done|].
    apply Forall_snoc; [done|]. cbn [Name Version Go.component].
    assert (Hin : field1 ∈ strings.Fields (strings.TrimSpace line)).
    { rewrite Hfields. apply list_elem_of_further, list_elem_of_here. }
    rewrite (TrimSpace_field _ field1 Hin).
    destruct (Fields_noSpace _ field1 Hin) as [Hne Hns].
    split_and!; [apply Base_nonempty|done|done].
  - unfold Maven.Analyze, Maven.parsePomXML. destruct file as [data|]; [simpl|done].
    intros [= <-]. apply foldl_Forall_snd; [|constructor].
    intros [b acc] line Hacc. destruct b; [|by rewrite parseLine_outside].
    destruct (Maven.parseLine (true, acc) line) as [b' comps'] eqn:Hstep.
    apply parseLine_emits in Hstep as [->|(a & v & -> & Ha & Hv & _)]; [done|].
    by apply Forall_snoc.
  - unfold PyPI.Analyze. destruct file as [data|]; [simpl|done].
    intros [= <-]. apply foldl_Forall; [|constructor].
    intros acc line Hacc. unfold PyPI.analyzeLine.
    repeat case_match; try done; apply Forall_snoc; try done;
      split; apply TrimSpace_trimmed.
  - unfold Cargo.Analyze. destruct file as [data|]; [simpl|done].
    intros [= <-]. apply foldl_Forall_snd; [|constructor].
    intros [b acc] line Hacc. unfold Cargo.analyzeLine.
    repeat case_match; try done; apply Forall_snoc; try done;
      apply TrimSpace_trimmed.
Qed.

Lemma X17_record_fields_witness :
  Forall (λ c, Name c ≠ [] ∧ Version c ≠ [] ∧ noSpace (Version c))
         [Go.component "go" "1.21"].
Proof.
  apply (proj1 (X17_record_fields "go.mod" (Some (lit "go 1.21")) _)).
  reflexivity.
Defined.

(** ** Files without an analyzer *)

Lemma block_other_name env dir name file :
  entryName name → name ∉ manifestNames →
  block env (filepath.Join dir name, file) = [].
Proof.
  intros Hname Hother. apply block_no_match. intros a Ha.
  destruct (ShouldAnalyze a (filepath.Join dir name)) eqn:Hshould; [|done].
  destruct (ShouldAnalyze_Base env a _ Ha Hshould) as [Hin _].
  by rewrite Base_Join in Hin.
Qed.

(** X18: an analyzer matches an entry of a directory exactly when the
    detector knows the entry's name and the name is neither [setup.py]
    nor [pyproject.toml]. These two names make the detector answer
    "pypi", and no analyzer reads them: such a file adds no record. *)
Theorem X18_detected_without_analyzer env dir name :
  entryName name →
  ((∃ a, a ∈ NewProjectAnalyzer env
         ∧ ShouldAnalyze a (filepath.Join dir name) = true)
   ↔ is_Some (signatureType name)
     ∧ name ≠ lit "setup.py" ∧ name ≠ lit "pyproject.toml") ∧
  (name = lit "setup.py" ∨ name = lit "pyproject.toml" →
   DetectProjectType (Some [name]) = lit "pypi" ∧
   ∀ file, block env (filepath.Join dir name, file) = []).
Proof.
  intros Hname. split; [split|].
  - intros (a & Ha & Hshould).
    destruct (ShouldAnalyze_Base env a _ Ha Hshould) as [Hin Hsig].
    rewrite Base_Join in Hin, Hsig by done.
    split_and!; [by eexists| |]; intros ->; revert Hin; decide_notin.
  - intros (Hsome & Hsetup & Hpyproject).
    apply manifest_matched. rewrite Base_Join by done.
    apply signatureType_names in Hsome. unfold signatureNames in Hsome.
    repeat (apply elem_of_cons in Hsome as [->|Hsome]; [done || decide_notin|]).
    by apply elem_of_nil in Hsome.
  - intros Hor. split.
    + by destruct Hor as [->| ->].
    + intros file. apply block_other_name; [done|].
      destruct Hor as [->| ->]; decide_notin.
Qed.

Lemma X18_detected_without_analyzer_witness :
  DetectProjectType (Some [lit "setup.py"]) = lit "pypi" ∧
  ∀ file, block envForward (filepath.Join "/proj" "setup.py", file) = [].
Proof.
  apply (proj2 (X18_detected_without_analyzer envForward "/proj" "setup.py"
                  ltac:(split; [discriminate|decide_notin]))).
  by left.
Defined.

(** X19: a file whose name is none of the five manifest names is never
    looked into: with any content, readable or not, it leaves the
    aggregate of its directory as it is without the file. *)
Theorem X19_other_files_ignored env dir before name content after :
  entryName name → name ∉ manifestNames →
  AnalyzeDir env dir (os.Dir true (before ++ (name, os.File content) :: after))
  = AnalyzeDir env dir (os.Dir true (before ++ after)).
Proof.
  intros Hname Hother. rewrite !AnalyzeDir_visited. simpl.
  destruct (pruned dir); [done|]. simpl. do 2 f_equal.
  rewrite !flat_map_app. simpl.
  by rewrite block_other_name.
Qed.

Lemma X19_other_files_ignored_witness :
  AnalyzeDir envForward "/proj"
    (os.Dir true [ (lit "README.md", os.File (Some (lit "express==4.18.0")));
                   (lit "package.json", os.File (Some expressJSON)) ])
  = AnalyzeDir envForward "/proj"
      (os.Dir true [ (lit "package.json", os.File (Some expressJSON)) ]).
Proof.
  apply (X19_other_files_ignored envForward "/proj" [] "README.md"
           (Some (lit "express==4.18.0"))
           [(lit "package.json", os.File (Some expressJSON))]).
  - split; [discriminate|decide_notin].
  - decide_notin.
Defined.
